(** * Point-cloud post-processing pipeline: a shallow embedding

    The development follows two source files of the repository:

    - [PointCloudSimulation/convert_to_npy.py]
      ([farthest_point_sample], [pc_norm], [convert_bridge_data]);
    - [PointCloudSimulation/run_simulations.py]
      (the leg-merging block of [pointcloud_complete_pipeline]).

    Python exceptions become an error type, NumPy arrays become lists of
    rows, the global NumPy random state becomes an explicit state that is
    threaded through the calls, and [print] / [np.save] / file writes are
    recorded in an event log.  Arithmetic is kept behind a small interface
    with two instances: IEEE-754 binary64 (what NumPy computes with) and
    the real numbers (the idealised reading of the numeric claims). *)

From Stdlib Require Import Ascii String.
From Stdlib Require Import ZArith List Bool Lia Arith Permutation.
From Stdlib Require Import Floats.SpecFloat.
From Stdlib Require Import Reals Lra.
From Stdlib Require Import Sorted DecimalString.
Import ListNotations.

Set Warnings "-abstract-large-number".

(* ===================================================================== *)
(** ** Python: exceptions and the error monad                            *)
(* ===================================================================== *)

Module Py.

(** The two exception classes the modelled code can raise. *)
Inductive exn : Set := IndexError | ValueError.

Inductive result (A : Type) : Type :=
| Ok (a : A)
| Raise (e : exn).
Arguments Ok {A} a.
Arguments Raise {A} e.

Definition bind {A B} (c : result A) (k : A -> result B) : result B :=
  match c with
  | Ok a => k a
  | Raise e => Raise e
  end.

Definition is_ok {A} (c : result A) : bool :=
  match c with Ok _ => true | Raise _ => false end.

(** [seq[i]] on a Python list: [IndexError] when out of range
    (non-negative indices only). *)
Definition getitem {A} (l : list A) (i : nat) : result A :=
  match nth_error l i with
  | Some a => Ok a
  | None => Raise IndexError
  end.

End Py.
Export Py.

Declare Scope py_scope.
Delimit Scope py_scope with py.
Notation "x <- c ;; k" := (Py.bind c (fun x => k))
  (at level 61, c at next level, right associativity) : py_scope.

(* ===================================================================== *)
(** ** Scalars                                                           *)
(* ===================================================================== *)

(** The arithmetic the NumPy code uses on [float64] entries. *)
Class Scalar (F : Type) : Type := {
  f_of_Z : Z -> F;             (* numeric literals and counts *)
  f_add : F -> F -> F;
  f_sub : F -> F -> F;
  f_mul : F -> F -> F;
  f_div : F -> F -> F;
  f_sqrt : F -> F;
  f_ltb : F -> F -> bool;      (* [<], false on NaN *)
  f_leb : F -> F -> bool;      (* [<=], false on NaN *)
  f_isnan : F -> bool;
  f_to_f32 : F -> F            (* [astype(np.float32)] *)
}.

Module Binary64.

Definition prec : Z := 53.
Definition emax : Z := 1024.

Definition float64 : Type := spec_float.

Definition of_Z (z : Z) : float64 := binary_normalize prec emax z 0 false.

Definition isnan (x : float64) : bool :=
  match x with S754_nan => true | _ => false end.

Definition is_zero (x : float64) : bool :=
  match x with S754_zero _ => true | _ => false end.

(** Finite means neither NaN nor an infinity ([np.isfinite]). *)
Definition isfinite (x : float64) : bool :=
  match x with
  | S754_zero _ | S754_finite _ _ _ => true
  | S754_infinity _ | S754_nan => false
  end.

(** Rounding to binary32; the value stays in the [spec_float] carrier. *)
Definition to_f32 (x : float64) : float64 :=
  match x with
  | S754_finite s m e => binary_round 24 128 s m e
  | _ => x
  end.

#[export] Instance scalar : Scalar float64 := {
  f_of_Z := of_Z;
  f_add := SFadd prec emax;
  f_sub := SFsub prec emax;
  f_mul := SFmul prec emax;
  f_div := SFdiv prec emax;
  f_sqrt := SFsqrt prec emax;
  f_ltb := SFltb;
  f_leb := SFleb;
  f_isnan := isnan;
  f_to_f32 := to_f32
}.

End Binary64.

Module Exact.

Definition leb (x y : R) : bool := if Rle_dec x y then true else false.
Definition ltb (x y : R) : bool := if Rlt_dec x y then true else false.

#[export] Instance scalar : Scalar R := {
  f_of_Z := IZR;
  f_add := Rplus;
  f_sub := Rminus;
  f_mul := Rmult;
  f_div := Rdiv;
  f_sqrt := sqrt;
  f_ltb := ltb;
  f_leb := leb;
  f_isnan := fun _ => false;
  f_to_f32 := fun x => x
}.


End Exact.

(* ===================================================================== *)
(** ** NumPy: arrays, reductions, text loading, the random state         *)
(* ===================================================================== *)

Module Numpy.

Section Arrays.
Context {F : Type} `{Scalar F}.

(** A two-dimensional array, stored row by row; [ncols] is
    [shape[1]] (kept explicitly so that an array without rows still
    has a shape). *)
Record matrix : Type := Matrix { rows : list (list F); ncols : nat }.

Definition nrows (m : matrix) : nat := length (rows m).

(** Every row has [ncols] entries. *)
Definition rectangular (m : matrix) : Prop :=
  Forall (fun r => length r = ncols m) (rows m).

(** What [np.loadtxt] can return with the default [ndmin=0]. *)
Inductive ndarray : Type :=
| A0 (x : F)                (* shape ()      *)
| A1 (v : list F)           (* shape (n,)    *)
| A2 (m : matrix).          (* shape (n, c)  *)

Definition shape (a : ndarray) : list nat :=
  match a with
  | A0 _ => []
  | A1 v => [length v]
  | A2 m => [nrows m; ncols m]
  end.

(** [np.loadtxt(file, delimiter=' ')] on a file whose non-blank lines
    have already been split and converted to numbers (the text-to-
    float conversion is outside the model).  Rows of different
    lengths are a [ValueError]; the result is squeezed, so a single
    row or a single column comes back one-dimensional and a single
    number zero-dimensional. *)
Definition loadtxt (table : list (list F)) : result ndarray :=
  match table with
  | [] => Ok (A1 [])
  | r0 :: rest =>
      let c := length r0 in
      if forallb (fun r => length r =? c) rest then
        match table, r0 with
        | [ [x] ], _ => Ok (A0 x)
        | [ r ], _ => Ok (A1 r)
        | _, [ _ ] => Ok (A1 (concat table))
        | _, _ => Ok (A2 (Matrix table c))
        end
      else Raise ValueError
  end.

(** [np.sum(v)] / [np.add.reduce]: accumulation from the identity,
    in index order. *)
Definition np_sum (v : list F) : F := fold_left f_add v (f_of_Z 0).

(** [np.maximum(a, b)], which lets a NaN win. *)
Definition maximum (a b : F) : F :=
  if f_leb b a || f_isnan a then a else b.

(** [np.max(v)]: no identity, so an empty array is a [ValueError]. *)
Definition np_max (v : list F) : result F :=
  match v with
  | [] => Raise ValueError
  | x :: t => Ok (fold_left maximum t x)
  end.

(** The scan of [np.argmax]: [best]/[mp] are the running index and
    maximum, [i] the index of the head of the remaining entries.
    An entry replaces the maximum when it is not [<=] to it (so a
    NaN does, and equal entries do not); a NaN maximum ends the
    scan. *)
Fixpoint argmax_scan (best : nat) (mp : F) (i : nat) (v : list F) : nat :=
  match v with
  | [] => best
  | x :: t =>
      if f_isnan mp then best
      else if negb (f_leb x mp) then argmax_scan i x (S i) t
      else argmax_scan best mp (S i) t
  end.

Definition np_argmax (v : list F) : result nat :=
  match v with
  | [] => Raise ValueError
  | x :: t => Ok (argmax_scan 0 x 1 t)
  end.

(** [a[idx]] with an integer index array: the rows at those
    positions, [IndexError] when a position is out of bounds. *)
Fixpoint take_rows (rs : list (list F)) (idx : list nat)
  : result (list (list F)) :=
  match idx with
  | [] => Ok []
  | i :: idx' =>
      (r <- getitem rs i ;;
       rest <- take_rows rs idx' ;;
       Ok (r :: rest))%py
  end.

(** [a[:, cols]] on one row. *)
Definition take_cols (cols : list nat) (r : list F) : list F :=
  map (fun j => nth j r (f_of_Z 0)) cols.

(** [a[:, lo:hi]] on one row. *)
Definition slice (lo hi : nat) (r : list F) : list F :=
  firstn (hi - lo) (skipn lo r).

End Arrays.

Arguments matrix F : clear implicits.
Arguments ndarray F : clear implicits.

(** The global [np.random] state, made explicit.  [np.random.choice]
    and [np.random.randint] are only known through their contract: the
    drawn indices are in range, there are as many as asked for, and
    without replacement they are pairwise distinct. *)
Class RandomState (G : Type) : Type := {
  draw_choice : nat -> nat -> bool -> G -> list nat * G;
  draw_randint : nat -> nat -> G -> nat * G;
  draw_choice_length : forall n k b g,
      length (fst (draw_choice n k b g)) = k;
  draw_choice_range : forall n k b g,
      0 < n -> (b = false -> k <= n) ->
      Forall (fun i => i < n) (fst (draw_choice n k b g));
  draw_choice_distinct : forall n k g,
      k <= n -> NoDup (fst (draw_choice n k false g));
  draw_randint_range : forall lo hi g,
      lo < hi -> lo <= fst (draw_randint lo hi g) < hi
}.

Section Random.
Context {G : Type} `{RandomState G}.

(** [np.random.choice(n, k, replace=b)]. *)
Definition random_choice (n k : nat) (replace : bool) (g : G)
  : result (list nat) * G :=
  if (n =? 0) && (0 <? k) then (Raise ValueError, g)
  else if negb replace && (n <? k) then (Raise ValueError, g)
  else let (idx, g') := draw_choice n k replace g in (Ok idx, g').

(** [np.random.randint(lo, hi)]. *)
Definition random_randint (lo hi : nat) (g : G) : result nat * G :=
  if hi <=? lo then (Raise ValueError, g)
  else let (i, g') := draw_randint lo hi g in (Ok i, g').

End Random.

(** A small deterministic generator, used to run the model on concrete
    inputs: the state is a counter; with replacement the indices walk
    round the population, without replacement they are a window of
    consecutive indices. *)
Module Counter.

Definition choice (n k : nat) (replace : bool) (g : nat) : list nat * nat :=
  if replace then (map (fun i => (g + i) mod n) (seq 0 k), S g)
  else (seq (g mod (n - k + 1)) k, S g).

Definition randint (lo hi g : nat) : nat * nat :=
  (lo + g mod (hi - lo), S g).

Lemma choice_length n k b g : length (fst (choice n k b g)) = k.
Proof.
  unfold choice; destruct b; simpl.
  - now rewrite length_map, length_seq.
  - apply length_seq.
Qed.

Lemma choice_range n k b g :
  0 < n -> (b = false -> k <= n) ->
  Forall (fun i => i < n) (fst (choice n k b g)).
Proof.
  intros Hn Hk. unfold choice; destruct b; simpl; apply Forall_forall.
  - intros i Hi. apply in_map_iff in Hi as (j & <- & _).
    apply Nat.mod_upper_bound. lia.
  - intros i Hi. apply in_seq in Hi.
    specialize (Hk eq_refl).
    assert (g mod (n - k + 1) < n - k + 1)
      by (apply Nat.mod_upper_bound; lia).
    lia.
Qed.

Lemma choice_distinct n k g : k <= n -> NoDup (fst (choice n k false g)).
Proof. intros _. apply seq_NoDup. Qed.

Lemma randint_range lo hi g :
  lo < hi -> lo <= fst (randint lo hi g) < hi.
Proof.
  intros Hlt. unfold randint; simpl.
  assert (g mod (hi - lo) < hi - lo) by (apply Nat.mod_upper_bound; lia).
  lia.
Qed.

#[export] Instance random_state : RandomState nat := {
  draw_choice := choice;
  draw_randint := randint;
  draw_choice_length := choice_length;
  draw_choice_range := choice_range;
  draw_choice_distinct := choice_distinct;
  draw_randint_range := randint_range
}.

End Counter.

End Numpy.
Export Numpy.

(* ===================================================================== *)
(** ** Paths and names                                                   *)
(* ===================================================================== *)

Module Paths.

Definition is_digit (c : ascii) : bool :=
  let n := nat_of_ascii c in (48 <=? n) && (n <=? 57).

Definition lower (c : ascii) : ascii :=
  let n := nat_of_ascii c in
  if (65 <=? n) && (n <=? 90) then ascii_of_nat (n + 32) else c.

(** [s.endswith(suffix)]. *)
Definition endswith (s suffix : string) : bool :=
  let n := String.length s in
  let k := String.length suffix in
  (k <=? n) && String.eqb (substring (n - k) k s) suffix.

(** The part of [s] after its last ['/'] ([PurePosixPath.name]). *)
Fixpoint basename_from (acc s : string) : string :=
  match s with
  | EmptyString => acc
  | String c s' =>
      if Ascii.eqb c "/"%char then basename_from s' s' else basename_from acc s'
  end.
Definition basename (s : string) : string := basename_from s s.

(** Index of the last ['.'] of [s], if any ([str.rfind]). *)
Fixpoint rfind_dot (i : nat) (s : string) : option nat :=
  match s with
  | EmptyString => None
  | String c s' =>
      match rfind_dot (S i) s' with
      | Some j => Some j
      | None => if Ascii.eqb c "."%char then Some i else None
      end
  end.

(** [Path(p).stem]: the final component without its last suffix. *)
Definition stem (p : string) : string :=
  let name := basename p in
  match rfind_dot 0 name with
  | Some i =>
      if (0 <? i) && (i <? String.length name - 1)
      then substring 0 i name else name
  | None => name
  end.

(** [os.path.join(dir, name)] for a relative [name]. *)
Definition join (dir name : string) : string :=
  if String.eqb dir ""%string then name
  else if endswith dir "/" then (dir ++ name)%string
  else (dir ++ "/" ++ name)%string.

(** Case-insensitive match of the literal [lit] at the start of [s];
    returns what follows it. *)
Fixpoint match_literal_ci (lit s : string) : option string :=
  match lit, s with
  | EmptyString, _ => Some s
  | String a lit', String b s' =>
      if Ascii.eqb (lower a) (lower b) then match_literal_ci lit' s' else None
  | String _ _, EmptyString => None
  end.

(** The longest run of digits at the start of [s] (greedy [\d+]). *)
Fixpoint take_digits (s : string) : string :=
  match s with
  | String c s' => if is_digit c then String c (take_digits s') else EmptyString
  | EmptyString => EmptyString
  end.

(** [re.search(r"bridge_(\d+)", s, re.IGNORECASE)]: group 1 of the
    leftmost match. *)
Fixpoint search_bridge_id (s : string) : option string :=
  let here :=
    match match_literal_ci "bridge_" s with
    | Some rest =>
        match take_digits rest with
        | EmptyString => None
        | d => Some d
        end
    | None => None
    end in
  match here, s with
  | Some d, _ => Some d
  | None, String _ s' => search_bridge_id s'
  | None, EmptyString => None
  end.

(** [f"bridge_{match.group(1)}_8192.npy" if match else
     f"{input_file.stem}_8192.npy"]. *)
Definition output_name (input_file : string) : string :=
  match search_bridge_id (stem input_file) with
  | Some d => ("bridge_" ++ d ++ "_8192.npy")%string
  | None => (stem input_file ++ "_8192.npy")%string
  end.

End Paths.

(* ===================================================================== *)
(** ** convert_to_npy.py                                                 *)
(* ===================================================================== *)

Module ConvertToNpy.

(** What the converter prints (the formatted text is not modelled,
    only which message and with which data). *)
Inductive message : Type :=
| MsgNotFound (input_file : string)
| MsgConverting (input_file : string)
| MsgSource (input_file : string)
| MsgShape (shape : list nat)
| MsgExtractedHelios
| MsgUsingStandard
| MsgUnsupportedFormat (columns : nat)
| MsgAddedPadding (shape : list nat)
| MsgRandomSampling (from : nat)
| MsgSamplingTime
| MsgUpsampling (from : nat)
| MsgSaved (output_name : string) (shape : list nat)
| MsgComplete (output_dir : string).

Section Converter.
Context {F : Type} `{Scalar F} {G : Type} `{RandomState G}.

Inductive event : Type :=
| Print (m : message)
| NpSave (output_file : string) (arr : matrix F).

(** The files the converter can see: which paths exist, and the
    numeric table each holds. *)
Record file_system : Type := FileSystem {
  fs_exists : string -> bool;
  fs_table : string -> list (list F)
}.

(** The state a run threads: the random state and what has been
    printed and saved so far (oldest first). *)
Record world : Type := World { rng : G; log : list event }.

Definition M (A : Type) : Type := world -> result A * world.

Definition ret {A} (a : A) : M A := fun w => (Ok a, w).
Definition raise {A} (e : exn) : M A := fun w => (Raise e, w).
Definition bindM {A B} (c : M A) (k : A -> M B) : M B :=
  fun w =>
    match c w with
    | (Ok a, w') => k a w'
    | (Raise e, w') => (Raise e, w')
    end.
Definition lift {A} (r : result A) : M A := fun w => (r, w).
Definition emit (e : event) : M unit :=
  fun w => (Ok tt, World (rng w) (log w ++ [e])).
Definition print (m : message) : M unit := emit (Print m).
Definition with_rng {A} (f : G -> result A * G) : M A :=
  fun w => let (r, g') := f (rng w) in (r, World g' (log w)).

Local Notation "x <-- c ;; k" := (bindM c (fun x => k))
  (at level 61, c at next level, right associativity).
Local Notation "c ;;; k" := (bindM c (fun _ => k))
  (at level 61, right associativity).

(** *** farthest_point_sample (lines 11-32) *)

(** [np.sum((p - centroid) ** 2, -1)] for one row [p] of [xyz]. *)
Definition sq_dist (centroid p : list F) : F :=
  np_sum (map (fun pc => let d := f_sub (fst pc) (snd pc) in f_mul d d)
              (combine p centroid)).

(** [mask = dist < distance; distance[mask] = dist[mask]]. *)
Definition update_distance (distance dist : list F) : list F :=
  map (fun dd => if f_ltb (snd dd) (fst dd) then snd dd else fst dd)
      (combine distance dist).

(** The [for i in range(npoint)] loop; returns [centroids]. *)
Fixpoint fps_loop (xyz : list (list F)) (npoint : nat)
         (farthest : nat) (distance : list F) : result (list nat) :=
  match npoint with
  | 0 => Ok []
  | S n =>
      (centroid <- getitem xyz farthest ;;
       let dist := map (sq_dist centroid) xyz in
       let distance' := update_distance distance dist in
       farthest' <- np_argmax distance' ;;
       centroids <- fps_loop xyz n farthest' distance' ;;
       Ok (farthest :: centroids))%py
  end.

(** The sampler once the initial index is known. *)
Definition fps_from (point : matrix F) (npoint farthest : nat)
  : result (matrix F) :=
  let xyz := map (slice 0 3) (rows point) in
  let distance :=
    repeat (f_mul (f_of_Z 1) (f_of_Z 10000000000)) (nrows point) in
  (centroids <- fps_loop xyz npoint farthest distance ;;
   rs <- take_rows (rows point) centroids ;;
   Ok (Matrix rs (ncols point)))%py.

Definition farthest_point_sample (point : matrix F) (npoint : nat)
  : M (matrix F) :=
  farthest <-- with_rng (random_randint 0 (nrows point)) ;;
  lift (fps_from point npoint farthest).

(** *** pc_norm (lines 34-45) *)

Definition column (j : nat) (a : list (list F)) : list F :=
  map (fun r => nth j r (f_of_Z 0)) a.

(** [np.mean(a, axis=0)] for an array with [width] columns. *)
Definition mean_axis0 (width : nat) (a : list (list F)) : list F :=
  map (fun j => f_div (np_sum (column j a))
                      (f_of_Z (Z.of_nat (length a))))
      (seq 0 width).

(** [a - v], [v] broadcast over the rows. *)
Definition sub_rows (a : list (list F)) (v : list F) : list (list F) :=
  map (fun r => map (fun xc => f_sub (fst xc) (snd xc)) (combine r v)) a.

(** [np.sqrt(np.sum(a ** 2, axis=1))]. *)
Definition row_norms (a : list (list F)) : list F :=
  map (fun r => f_sqrt (np_sum (map (fun x => f_mul x x) r))) a.

(** [np.concatenate((a, b), axis=1)]. *)
Definition concatenate_axis1 (a b : list (list F)) : list (list F) :=
  map (fun ab => fst ab ++ snd ab) (combine a b).

Definition pc_norm (pc : matrix F) : result (matrix F) :=
  let xyz := map (slice 0 3) (rows pc) in
  let other_feature := map (skipn 3) (rows pc) in
  let centroid := mean_axis0 (Nat.min 3 (ncols pc)) xyz in
  let xyz := sub_rows xyz centroid in
  (m <- np_max (row_norms xyz) ;;
   let xyz := map (map (fun x => f_div x m)) xyz in
   Ok (Matrix (concatenate_axis1 xyz other_feature) (ncols pc)))%py.

(** The intermediate values of [pc_norm], named: the spatial block
    [pc[:, :3]], its centroid, the centred block and the divisor [m]. *)
Definition spatial (pc : matrix F) : list (list F) :=
  map (slice 0 3) (rows pc).

Definition centroid_of (pc : matrix F) : list F :=
  mean_axis0 (Nat.min 3 (ncols pc)) (spatial pc).

Definition centered (pc : matrix F) : list (list F) :=
  sub_rows (spatial pc) (centroid_of pc).

Definition norm_divisor (pc : matrix F) : result F :=
  np_max (row_norms (centered pc)).

(** The centred spatial part of one row. *)
Definition center_row (centroid r : list F) : list F :=
  map (fun xc => f_sub (fst xc) (snd xc)) (combine (slice 0 3 r) centroid).

(** *** convert_bridge_data (lines 48-118) *)

(** [data[0][:5]] inside the "Shape ... Sample ..." message. *)
Definition sample_row (data : ndarray F) : result (list F) :=
  match data with
  | A0 _ => Raise IndexError        (* 0-d array cannot be indexed *)
  | A1 v =>
      (_ <- getitem v 0 ;;
       Raise IndexError)%py         (* a scalar cannot be sliced *)
  | A2 m =>
      (r <- getitem (rows m) 0 ;;
       Ok (firstn 5 r))%py
  end.

(** Lines 70-82, the 11-column branch: [data[:, [0, 1, 2, 3, 7]]]. *)
Definition extract_helios (data : matrix F) : matrix F :=
  Matrix (map (take_cols [0; 1; 2; 3; 7]) (rows data)) 5.

(** Lines 70-82, the 6-column branch:
    [point_cloud[:, 3:6] = point_cloud[:, 3:6] / 255.0]. *)
Definition normalize_rgb (data : matrix F) : matrix F :=
  Matrix (map (fun r => firstn 3 r
                        ++ map (fun x => f_div x (f_of_Z 255)) (slice 3 6 r)
                        ++ skipn 6 r)
              (rows data))
         (ncols data).

(** Lines 85-89. *)
Definition color_padding (point_cloud : matrix F) : matrix F :=
  let xyz := map (slice 0 3) (rows point_cloud) in
  let padding :=
    repeat (repeat (f_of_Z 0) 3) (nrows point_cloud) in
  Matrix (concatenate_axis1 xyz padding)
         (Nat.min 3 (ncols point_cloud) + 3).

Definition target_count : nat := 8192.

(** Lines 91-104, with the literal 8192 as the parameter [K]. *)
Definition resample_to (K : nat) (point_cloud : matrix F) : M (matrix F) :=
  let n := nrows point_cloud in
  if K <? n then
    print (MsgRandomSampling n) ;;;
    indices <-- with_rng (random_choice n K false) ;;
    rs <-- lift (take_rows (rows point_cloud) indices) ;;
    print MsgSamplingTime ;;;
    ret (Matrix rs (ncols point_cloud))
  else if n <? K then
    print (MsgUpsampling n) ;;;
    indices <-- with_rng (random_choice n K true) ;;
    rs <-- lift (take_rows (rows point_cloud) indices) ;;
    ret (Matrix rs (ncols point_cloud))
  else ret point_cloud.

Definition resample : matrix F -> M (matrix F) := resample_to target_count.

Definition astype_float32 (a : matrix F) : matrix F :=
  Matrix (map (map f_to_f32) (rows a)) (ncols a).

(** Lines 84-118: everything after the format has been resolved. *)
Definition finish (input_file output_dir : string)
           (add_color_padding : bool) (point_cloud : matrix F) : M unit :=
  point_cloud <--
    (if add_color_padding then
       let padded := color_padding point_cloud in
       print (MsgAddedPadding [nrows padded; ncols padded]) ;;;
       ret padded
     else ret point_cloud) ;;
  point_cloud <-- resample point_cloud ;;
  point_cloud <-- lift (pc_norm point_cloud) ;;
  let output_name := Paths.output_name input_file in
  let output_file := Paths.join output_dir output_name in
  emit (NpSave output_file (astype_float32 point_cloud)) ;;;
  print (MsgSaved output_name [nrows point_cloud; ncols point_cloud]) ;;;
  print (MsgComplete output_dir).

(** Lines 70-82: [Some] extracted point cloud for a known schema,
    [None] for any other column count. *)
Definition resolve_format (data : matrix F) : option (matrix F * message) :=
  if ncols data =? 11 then Some (extract_helios data, MsgExtractedHelios)
  else if ncols data =? 6 then Some (normalize_rgb data, MsgUsingStandard)
  else None.

Definition convert_bridge_data (fs : file_system)
           (input_file output_dir : string) (add_color_padding : bool)
  : M unit :=
  if negb (fs_exists fs input_file) then
    print (MsgNotFound input_file)
  else
    print (MsgConverting input_file) ;;;
    print (MsgSource input_file) ;;;
    data <-- lift (loadtxt (fs_table fs input_file)) ;;
    _ <-- lift (sample_row data) ;;
    print (MsgShape (shape data)) ;;;
    columns <-- lift (getitem (shape data) 1) ;;
    match data with
    | A2 data =>
        match resolve_format data with
        | Some (point_cloud, msg) =>
            print msg ;;;
            finish input_file output_dir add_color_padding point_cloud
        | None => print (MsgUnsupportedFormat columns)
        end
    | _ => raise IndexError
    end.

(** The artifacts a run wrote. *)
Definition saved (l : list event) : list (string * matrix F) :=
  flat_map (fun e => match e with
                     | NpSave f a => [(f, a)]
                     | Print _ => []
                     end) l.

Definition prints (l : list event) : list message :=
  flat_map (fun e => match e with
                     | Print m => [m]
                     | NpSave _ _ => []
                     end) l.

End Converter.

End ConvertToNpy.
Export ConvertToNpy.

(* ===================================================================== *)
(** ** run_simulations.py: merging the leg scans (lines 122-184)         *)
(* ===================================================================== *)

Module RunSimulations.

(** Text is ASCII here; [str.isspace] on ASCII is true for
    TAB, LF, VT, FF, CR, FS, GS, RS, US and the space. *)
Definition is_space (c : ascii) : bool :=
  let n := nat_of_ascii c in
  ((9 <=? n) && (n <=? 13)) || ((28 <=? n) && (n <=? 32)).

Fixpoint lstrip (s : list ascii) : list ascii :=
  match s with
  | c :: s' => if is_space c then lstrip s' else s
  | [] => []
  end.

(** [line.strip()]. *)
Definition strip (line : string) : string :=
  string_of_list_ascii
    (rev (lstrip (rev (lstrip (list_ascii_of_string line))))).

(** The scan of [str.split()]: [cur] is the field being read, in
    reverse. *)
Fixpoint split_scan (cur : list ascii) (s : list ascii) : list string :=
  match s with
  | [] =>
      match cur with
      | [] => []
      | _ => [string_of_list_ascii (rev cur)]
      end
  | c :: s' =>
      if is_space c then
        match cur with
        | [] => split_scan [] s'
        | _ => string_of_list_ascii (rev cur) :: split_scan [] s'
        end
      else split_scan (c :: cur) s'
  end.

(** [line.split()]: the maximal runs of non-blank characters. *)
Definition split (line : string) : list string :=
  split_scan [] (list_ascii_of_string line).

(** Decimal digits with single underscores between them, as [int]
    accepts them; [seen] tells whether the previous character was a
    digit. *)
Fixpoint int_digits (acc : Z) (seen : bool) (s : list ascii) : option Z :=
  match s with
  | [] => if seen then Some acc else None
  | c :: s' =>
      if Paths.is_digit c then
        int_digits (10 * acc + (Z.of_nat (nat_of_ascii c) - 48)) true s'
      else if Ascii.eqb c "_"%char then
        if seen then int_digits acc false s' else None
      else None
  end.

(** [int(field)] on a field without blanks: an optional sign, then
    digits; anything else is a [ValueError].  (The interpreter's
    configurable cap on the number of digits is not modelled.) *)
Definition py_int (field : string) : result Z :=
  let body sign s :=
    match int_digits 0 false s with
    | Some v => Ok (sign * v)%Z
    | None => Raise ValueError
    end in
  match list_ascii_of_string field with
  | c :: s' =>
      if Ascii.eqb c "-"%char then body (-1)%Z s'
      else if Ascii.eqb c "+"%char then body 1%Z s'
      else body 1%Z (c :: s')
  | [] => Raise ValueError
  end.

(** [component_files], a [defaultdict(list)]: keys in insertion
    order, each with the lines appended to it so far. *)
Definition component_dict : Type := list (Z * list string).

(** [component_files[k].append(line)]. *)
Fixpoint dict_append (k : Z) (line : string) (d : component_dict)
  : component_dict :=
  match d with
  | [] => [(k, [line])]
  | (k', ls) :: d' =>
      if Z.eqb k k' then (k', ls ++ [line]) :: d'
      else (k', ls) :: dict_append k line d'
  end.

Record merge_state : Type := MergeState {
  all_lines : list string;
  component_files : component_dict
}.

(** The body of the loop over the lines of a leg file
    (lines 135-147). *)
Definition process_line (st : merge_state) (line : string)
  : result merge_state :=
  let line := strip line in
  if String.eqb line EmptyString then Ok st
  else
    let all_lines' := all_lines st ++ [line] in
    let parts := split line in
    (field <- getitem parts 8 ;;
     component_id <- py_int field ;;
     Ok (MergeState all_lines'
           (dict_append component_id line (component_files st))))%py.

(** [for line_num, line in enumerate(f, 1)]. *)
Fixpoint process_lines (st : merge_state) (lines : list string)
  : result merge_state :=
  match lines with
  | [] => Ok st
  | line :: rest =>
      (st' <- process_line st line ;; process_lines st' rest)%py
  end.

(** The directory a run reads: what [os.listdir] returns for the scan
    directory (in the order the operating system gives), and the lines
    of each file (with their line ends). *)
Record scan_dir : Type := ScanDir {
  listdir : list string;
  readlines : string -> list string
}.

(** Lines 123-127. *)
Definition xyz_files (latest_scan_dir : string) (d : scan_dir) : list string :=
  map (Paths.join latest_scan_dir)
      (filter (fun fname => Paths.endswith fname ".xyz") (listdir d)).

(** [for leg_file in xyz_files] (lines 132-147). *)
Fixpoint process_files (d : scan_dir) (st : merge_state)
         (files : list string) : result merge_state :=
  match files with
  | [] => Ok st
  | leg_file :: rest =>
      (st' <- process_lines st (readlines d leg_file) ;;
       process_files d st' rest)%py
  end.

(** ['\n'.join(lines)]. *)
Fixpoint join_lines (lines : list string) : string :=
  match lines with
  | [] => EmptyString
  | [l] => l
  | l :: rest => (l ++ String "010"%char (join_lines rest))%string
  end.

(** What the block does to the outside, in order. *)
Inductive action : Type :=
| Makedirs (path : string)
| WriteText (path content : string)
| ReportMerged (bridge_id : string) (points : nat)
| ReportRunningSegmentation
| SemanticSegmentation (groups : component_dict) (out_dir : string)
| ReportSegmentationCompleted
| ReportNoSegmentation
| ReportConverting
| ConvertBridgeData (input_file output_dir : string)
                    (add_color_padding : bool).

(** [merged_output_dir / f"TLS_{bridge_id}"] (line 150). *)
Definition merged_dir (scan_output_dir bridge_id : string) : string :=
  Paths.join (Paths.join scan_output_dir "merged")
             ("TLS_" ++ bridge_id)%string.

(** [merged_bridge_dir / f"{bridge_id}_complete.xyz"] (line 152). *)
Definition merged_file (scan_output_dir bridge_id : string) : string :=
  Paths.join (merged_dir scan_output_dir bridge_id)
             (bridge_id ++ "_complete.xyz")%string.

(** Lines 129-184 of [pointcloud_complete_pipeline], for one bridge
    whose simulation has run: merge the legs, write the merged
    file, hand the groups to the segmentation and the merged file to
    the converter.  An exception raised while merging leaves the block
    at once, so nothing is in the action list then. *)
Definition merge_leg_scans (d : scan_dir)
           (latest_scan_dir scan_output_dir bridge_id : string)
           (run_segmentation convert_to_npy : bool)
  : result unit * list action :=
  match process_files d (MergeState [] []) (xyz_files latest_scan_dir d) with
  | Raise e => (Raise e, [])
  | Ok st =>
      let merged_bridge_dir := merged_dir scan_output_dir bridge_id in
      let merged_output_file := merged_file scan_output_dir bridge_id in
      let segmented_output_dir := Paths.join scan_output_dir "segmented" in
      let segmented_bridge_dir :=
        Paths.join segmented_output_dir ("TLS_" ++ bridge_id)%string in
      let npy_output_dir := Paths.join scan_output_dir "npy" in
      (Ok tt,
       [ Makedirs merged_bridge_dir;
         WriteText merged_output_file
           (join_lines (all_lines st) ++ String "010"%char EmptyString)%string;
         ReportMerged bridge_id (length (all_lines st)) ]
       ++ (if run_segmentation then
             [ ReportRunningSegmentation;
               Makedirs segmented_output_dir;
               Makedirs segmented_bridge_dir;
               SemanticSegmentation (component_files st)
                                    segmented_bridge_dir;
               ReportSegmentationCompleted ]
           else [ ReportNoSegmentation ])
       ++ (if convert_to_npy then
             [ ReportConverting;
               Makedirs npy_output_dir;
               ConvertBridgeData merged_output_file npy_output_dir true ]
           else []))
  end.

(** The merged artifacts a run wrote and the groupings it handed on. *)
Definition written (l : list action) : list (string * string) :=
  flat_map (fun a => match a with
                     | WriteText p c => [(p, c)]
                     | _ => []
                     end) l.





(** The rows a leg file contributes: its lines, stripped, blank ones
    left out. *)
Definition leg_rows (lines : list string) : list string :=
  filter (fun l => negb (String.eqb l EmptyString)) (map strip lines).

(** The leg-file names of a listing, in listing order. *)
Definition leg_names (d : scan_dir) : list string :=
  filter (fun fname => Paths.endswith fname ".xyz") (listdir d).

End RunSimulations.
Export RunSimulations.

(* ===================================================================== *)
(** ** Concrete inputs used to run the model                             *)
(* ===================================================================== *)

Module Sample.

Import Binary64.

Definition nl : string := String "010"%char EmptyString.

(** Two leg files of one scan session, one row each (11 fields, the
    9th being the component identifier). *)
Definition leg000 : list string :=
  [("1.0 2.0 3.0 0.5 0.0 1 1 0 3 0 12.5" ++ nl)%string].
Definition leg001 : list string :=
  [("4.0 5.0 6.0 0.7 0.0 1 1 0 4 0 12.6" ++ nl)%string; nl].

Definition session_files (path : string) : list string :=
  if String.eqb path "scan/leg000_points.xyz" then leg000
  else if String.eqb path "scan/leg001_points.xyz" then leg001
  else [].

(** The same directory, listed in two orders. *)
Definition listed_ab : scan_dir :=
  ScanDir ["leg000_points.xyz"; "leg001_points.xyz"; "notes.txt"]%string
          session_files.
Definition listed_ba : scan_dir :=
  ScanDir ["leg001_points.xyz"; "notes.txt"; "leg000_points.xyz"]%string
          session_files.

(** A session with a row that is too short, and one with a row whose
    9th field is not an integer. *)
Definition short_row : string := ("4.0 5.0 6.0" ++ nl)%string.
Definition bad_key_row : string :=
  ("4.0 5.0 6.0 0.7 0.0 1 1 0 12.5 0 4" ++ nl)%string.

Definition broken_session (bad : string) : scan_dir :=
  ScanDir ["leg000_points.xyz"; "leg001_points.xyz"]%string
          (fun path =>
             if String.eqb path "scan/leg001_points.xyz"
             then leg001 ++ [bad] else session_files path).

(** A point cloud with one row more than the target: the origin first,
    then 8192 copies of one other point (six channels, as after colour
    padding). *)
Definition origin_row : list float64 := map of_Z [0; 0; 0; 0; 0; 0]%Z.
Definition unit_row : list float64 := map of_Z [1; 0; 0; 0; 0; 0]%Z.
Definition cloud_8193 : matrix float64 :=
  Matrix (origin_row :: repeat unit_row 8192) 6.

(** Two coincident points, and three points two of which coincide (six
    channels: x, y, z and three attribute values). *)
Definition coincident : matrix float64 :=
  Matrix [map of_Z [1; 2; 3; 7; 8; 9]%Z; map of_Z [1; 2; 3; 7; 8; 9]%Z] 6.



End Sample.

(* ===================================================================== *)
(** ** The grouping of the merge, as a specification *)
(* ===================================================================== *)

Module Grouping.

(** The component identifier of a merged row, read as line 143-146 do:
    the 9th blank-separated field, through [int]. *)
Definition row_key (row : string) : result Z :=
  (field <- getitem (split row) 8 ;; py_int field)%py.

Definition has_key (k : Z) (row : string) : bool :=
  match row_key row with
  | Ok k' => Z.eqb k' k
  | Raise _ => false
  end.

(** [component_files.get(k, [])]. *)
Definition group_of (k : Z) (d : component_dict) : list string :=
  match find (fun g => Z.eqb k (fst g)) d with
  | Some g => snd g
  | None => []
  end.


(** What the grouping satisfies at every point of the merge. *)
Definition grouped (st : merge_state) : Prop :=
  NoDup (map fst (component_files st))
  /\ (forall g, In g (component_files st) -> snd g <> [])
  /\ (forall k, group_of k (component_files st)
                = filter (has_key k) (all_lines st))
  /\ Permutation (concat (map snd (component_files st))) (all_lines st)
  /\ Forall (fun row => exists k, row_key row = Ok k) (all_lines st).

End Grouping.
Export Grouping.

(* ===================================================================== *)
(** ** The converter's stages *)
(* ===================================================================== *)

Section Stages.
Context {F : Type} `{Scalar F}.


End Stages.

(* ===================================================================== *)
(** ** The state of the argmax scan *)
(* ===================================================================== *)

Module ArgmaxSpec.

Import Binary64.

(** What the scan has established after reading [pre]: [best] is a
    position of [pre] holding [mp], every entry read is [<= mp], and
    the entries before [best] are not [>= mp]. *)
Definition scanned (pre : list float64) (best : nat) (mp : float64) : Prop :=
  best < length pre
  /\ nth_error pre best = Some mp
  /\ Forall (fun y => SFleb y mp = true) pre
  /\ Forall (fun y => SFleb mp y = false) (firstn best pre).

End ArgmaxSpec.
Export ArgmaxSpec.

(* ===================================================================== *)
(** ** create_scene_xml.py *)
(* ===================================================================== *)

Module CreateSceneXml.

(** The double quote, for the attribute values of the XML lines. *)
Definition dq : string := String "034"%char EmptyString.

(** [f"{idx}"] for a non-negative integer. *)
Definition nat_to_string (n : nat) : string :=
  NilZero.string_of_uint (Nat.to_uint n).

(** [list.insert] into a sorted list, the step of [sorted]. *)
Fixpoint insert_sorted (x : string) (l : list string) : list string :=
  match l with
  | [] => [x]
  | y :: l' => if String.leb x y then x :: l else y :: insert_sorted x l'
  end.

(** [sorted(names)]: strings in code-point order. *)
Definition sorted (names : list string) : list string :=
  fold_right insert_sorted [] names.

(** Lines 19-21: the names matching [*.obj] in the bridge folder,
    sorted; nothing when the folder does not exist ([folder = None]).
    [folder] holds the entry names in the order the operating system
    lists them. *)
Definition obj_files (folder : option (list string)) : list string :=
  match folder with
  | Some names => sorted (filter (fun f => Paths.endswith f ".obj") names)
  | None => []
  end.

(** Lines 32-37: the six lines of one part. *)
Definition part_lines (bridge_id : string) (idx : nat) (obj_file : string)
  : list string :=
  [ ("        <part id=" ++ dq ++ nat_to_string idx ++ dq ++ ">")%string;
    ("            <filter type=" ++ dq ++ "objloader" ++ dq ++ ">")%string;
    ("                <param type=" ++ dq ++ "string" ++ dq
       ++ " key=" ++ dq ++ "filepath" ++ dq
       ++ " value=" ++ dq ++ "/Dataset/BridgeModels/" ++ bridge_id
       ++ "/" ++ obj_file ++ dq ++ " />")%string;
    ("                <param type=" ++ dq ++ "string" ++ dq
       ++ " key=" ++ dq ++ "up" ++ dq
       ++ " value=" ++ dq ++ "z" ++ dq ++ " />")%string;
    "            </filter>"%string;
    "        </part>"%string ].

(** Lines 24-41: [xml_parts]. *)
Definition xml_parts (bridge_id : string) (objs : list string) : list string :=
  [ ("<?xml version=" ++ dq ++ "1.0" ++ dq
       ++ " encoding=" ++ dq ++ "UTF-8" ++ dq ++ "?>")%string;
    "<document>"%string;
    ("    <scene id=" ++ dq ++ "TLS_" ++ bridge_id ++ dq
       ++ " name=" ++ dq ++ "TLS_" ++ bridge_id ++ dq ++ ">")%string;
    EmptyString ]
  ++ flat_map (fun p => part_lines bridge_id (fst p) (snd p))
              (combine (seq 0 (length objs)) objs)
  ++ [ String "009"%char (String "009"%char EmptyString);
       "    </scene>"%string;
       "</document>"%string ].

(** What a call does: the file it writes and the component count it
    reports. *)
Record scene_result : Type := SceneResult {
  scene_path : string;
  scene_content : string;
  scene_components : nat
}.

(** [create_scene_xml(bridge, output_path)], with [bridge['bridge_id']]
    already read. *)
Definition create_scene_xml (bridge_id : string)
           (folder : option (list string)) (output_path : string)
  : scene_result :=
  let objs := obj_files folder in
  SceneResult output_path (join_lines (xml_parts bridge_id objs))
              (length objs).

(** The order [sorted] puts strings in. *)
Definition string_le (a b : string) : Prop := String.leb a b = true.

End CreateSceneXml.
Export CreateSceneXml.

(* ===================================================================== *)
(** ** Names of sessions and files *)
(* ===================================================================== *)

Module Naming.



End Naming.
Export Naming.

(* ===================================================================== *)
(** ** run_simulations.py: the latest scan folder (lines 113-120) *)
(* ===================================================================== *)

Module LatestScan.

Import Binary64.

(** An entry of the bridge's scan directory, as [iterdir] yields it:
    its name, whether it is a directory, and its [st_mtime]. *)
Record dir_entry : Type := DirEntry {
  entry_name : string;
  entry_is_dir : bool;
  entry_mtime : float64
}.

(** One step of [sorted(..., key=mtime, reverse=True)]: [x], which
    comes before the entries of [l] in the input, goes in front of the
    first entry whose key is not larger, so that entries with equal
    keys keep their input order. *)
Fixpoint insert_latest (x : dir_entry) (l : list dir_entry) : list dir_entry :=
  match l with
  | [] => [x]
  | y :: l' =>
      if SFltb (entry_mtime x) (entry_mtime y)
      then y :: insert_latest x l'
      else x :: l
  end.

(** Lines 116-117. *)
Definition timestamp_folders (entries : list dir_entry) : list dir_entry :=
  fold_right insert_latest [] (filter entry_is_dir entries).

(** Line 119: [timestamp_folders[0]]. *)
Definition latest_scan_dir (entries : list dir_entry) : result dir_entry :=
  getitem (timestamp_folders entries) 0.

(** The head of the sorted list is at least as recent as everything in
    it. *)
Definition newest_first (l : list dir_entry) : Prop :=
  match l with
  | [] => True
  | h :: _ => Forall (fun e => SFleb (entry_mtime e) (entry_mtime h) = true) l
  end.

End LatestScan.
Export LatestScan.

(* ===================================================================== *)
(** ** Farthest-point sampling: when the rows are apart                  *)
(* ===================================================================== *)

Module Spread.

Import Binary64.

(** A strictly positive binary64 number (so not a NaN). *)
Definition positive (d : float64) : Prop := SFltb (of_Z 0) d = true.

(** Rows whose squared distances behave as distances do: a row is at
    distance zero from itself (its coordinates are finite), and two
    rows at different positions are at a positive squared distance
    (they differ, and not by so little that the square underflows). *)
Definition apart (xyz : list (list float64)) : Prop :=
  (forall i x, nth_error xyz i = Some x -> is_zero (sq_dist x x) = true)
  /\ (forall i j x y,
         nth_error xyz i = Some x -> nth_error xyz j = Some y ->
         i <> j -> positive (sq_dist x y)).

(** The distance array between two passes of the loop, [chosen] being
    the positions selected so far: zero at the chosen positions,
    positive elsewhere. *)
Definition distances_ok (n : nat) (chosen : list nat) (distance : list float64)
  : Prop :=
  length distance = n
  /\ forall i d, nth_error distance i = Some d ->
                 (In i chosen -> is_zero d = true)
                 /\ (~ In i chosen -> positive d).

End Spread.
Export Spread.

(* ===================================================================== *)
(** ** More concrete inputs                                              *)
(* ===================================================================== *)

Module Cases.

Import Binary64.

(** What a successful merge of [Sample.listed_ab] holds at the end. *)
Definition row_a : string := "1.0 2.0 3.0 0.5 0.0 1 1 0 3 0 12.5".
Definition row_b : string := "4.0 5.0 6.0 0.7 0.0 1 1 0 4 0 12.6".
Definition merged_ab : merge_state :=
  MergeState [row_a; row_b] [(3%Z, [row_a]); (4%Z, [row_b])].


(** A cloud of four points on a line. *)
Definition four_points : matrix float64 :=
  Matrix (map (fun z => map of_Z [z; 0; 0; 0; 0; 0]%Z) [0; 1; 5; 2]%Z) 6.

(** A bridge scan directory: two runs of the simulation and a file. *)
Definition scan_entries : list dir_entry :=
  [ DirEntry "2026-01-01_10-00-00" true (of_Z 1767261600);
    DirEntry "2026-01-02_09-30-00" true (of_Z 1767346200);
    DirEntry "log.txt" false (of_Z 1767350000) ].

End Cases.

(* ===================================================================== *)
(** * Properties                                                         *)
(* ===================================================================== *)

(** ** Running the name derivation *)

Example output_name_bridge :
  Paths.output_name "out/merged/TLS_bridge_5/Bridge_5_complete.xyz"
  = "bridge_5_8192.npy"%string.
Proof. reflexivity. Qed.

Example output_name_fallback :
  Paths.output_name "scan/cloud.v2.xyz" = "cloud.v2_8192.npy"%string.
Proof. reflexivity. Qed.

(** ** Index arrays *)

Section TakeRows.
Context {F : Type} `{Scalar F}.

Lemma take_rows_in_range (rs : list (list F)) (idx : list nat) :
  Forall (fun i => i < length rs) idx ->
  take_rows rs idx = Ok (map (fun i => nth i rs []) idx).
Proof.
  induction 1 as [|i idx Hi _ IH]; simpl; [reflexivity|].
  unfold getitem.
  destruct (nth_error rs i) as [r|] eqn:E.
  - simpl. rewrite IH. simpl.
    now rewrite (nth_error_nth _ _ _ E).
  - apply nth_error_None in E. lia.
Qed.

Lemma take_rows_length (rs : list (list F)) (idx : list nat) out :
  take_rows rs idx = Ok out -> length out = length idx.
Proof.
  revert out; induction idx as [|i idx IH]; simpl; intros out E.
  - now inversion E.
  - destruct (getitem rs i); simpl in E; [|discriminate].
    destruct (take_rows rs idx); simpl in E; [|discriminate].
    inversion E; subst; simpl. now rewrite (IH _ eq_refl).
Qed.

End TakeRows.

(** ** The resampler (lines 91-104) *)

Section Resampler.
Context {F : Type} `{Scalar F} {G : Type} `{RandomState G}.

(** With more rows than the target the resampler draws [K] distinct
    positions and returns the rows found there. *)
Lemma resample_to_down (K : nat) (pc : matrix F) (w : world) :
  K < nrows pc ->
  let idx := fst (draw_choice (nrows pc) K false (rng w)) in
  resample_to K pc w
  = (Ok (Matrix (map (fun i => nth i (rows pc) []) idx) (ncols pc)),
     World (snd (draw_choice (nrows pc) K false (rng w)))
           (log w ++ [Print (MsgRandomSampling (nrows pc));
                      Print MsgSamplingTime])).
Proof.
  intros HK idx. unfold resample_to.
  apply Nat.ltb_lt in HK as HK'. rewrite HK'.
  unfold bindM, print, emit, with_rng, random_choice, lift, ret; simpl.
  replace (nrows pc =? 0) with false by (symmetry; apply Nat.eqb_neq; lia).
  replace (nrows pc <? K) with false by (symmetry; apply Nat.ltb_ge; lia).
  simpl.
  destruct (draw_choice (nrows pc) K false (rng w)) as [ix g'] eqn:E.
  subst idx; simpl.
  assert (Hr : Forall (fun i => i < length (rows pc)) ix).
  { pose proof (draw_choice_range (nrows pc) K false (rng w)) as R.
    rewrite E in R. apply R; [lia | intros _; lia]. }
  rewrite (take_rows_in_range _ _ Hr). simpl.
  now rewrite <- app_assoc.
Qed.

(** With fewer rows (but at least one) it draws [K] positions with
    replacement. *)
Lemma resample_to_up (K : nat) (pc : matrix F) (w : world) :
  0 < nrows pc -> nrows pc < K ->
  let idx := fst (draw_choice (nrows pc) K true (rng w)) in
  resample_to K pc w
  = (Ok (Matrix (map (fun i => nth i (rows pc) []) idx) (ncols pc)),
     World (snd (draw_choice (nrows pc) K true (rng w)))
           (log w ++ [Print (MsgUpsampling (nrows pc))])).
Proof.
  intros Hpos HK idx. unfold resample_to.
  replace (K <? nrows pc) with false by (symmetry; apply Nat.ltb_ge; lia).
  apply Nat.ltb_lt in HK as HK'. rewrite HK'.
  unfold bindM, print, emit, with_rng, random_choice, lift, ret; simpl.
  replace (nrows pc =? 0) with false by (symmetry; apply Nat.eqb_neq; lia).
  simpl.
  destruct (draw_choice (nrows pc) K true (rng w)) as [ix g'] eqn:E.
  subst idx; simpl.
  assert (Hr : Forall (fun i => i < length (rows pc)) ix).
  { pose proof (draw_choice_range (nrows pc) K true (rng w)) as R.
    rewrite E in R. apply R; [exact Hpos | discriminate]. }
  now rewrite (take_rows_in_range _ _ Hr).
Qed.

(** C5. When the point set already has the target number of rows the
    resampler returns it as it is: the same rows in the same order
    (hence the same multiset of rows), and neither the random state
    nor the log is touched. *)
Theorem resample_identity (K : nat) (pc : matrix F) (w : world) :
  nrows pc = K ->
  resample_to K pc w = (Ok pc, w).
Proof.
  intros <-. unfold resample_to.
  now rewrite Nat.ltb_irrefl.
Qed.

(** C4. For a point set with at least one row and a target of at least
    one, the resampler succeeds and its output has exactly [K] rows,
    in each of its three branches. *)
Theorem resample_cardinality (K : nat) (pc : matrix F) (w : world) :
  1 <= nrows pc -> 1 <= K ->
  exists out w', resample_to K pc w = (Ok out, w') /\ nrows out = K.
Proof.
  intros HN HK.
  destruct (Nat.lt_trichotomy K (nrows pc)) as [Hlt | [Heq | Hgt]].
  - eexists; eexists; split; [apply resample_to_down; exact Hlt|].
    unfold nrows; simpl. rewrite length_map. apply draw_choice_length.
  - exists pc, w. split; [|now symmetry].
    unfold resample_to. rewrite Heq. now rewrite Nat.ltb_irrefl.
  - eexists; eexists; split; [apply resample_to_up; lia|].
    unfold nrows; simpl. rewrite length_map. apply draw_choice_length.
Qed.

End Resampler.

Import Binary64 Counter.

Lemma resample_identity_witness :
  let pc : matrix float64 := Matrix (repeat (map of_Z [1; 2; 3; 0; 0; 0]%Z) 8192) 6 in
  resample_to target_count pc (World 0 []) = (Ok pc, World 0 []).
Proof.
  intro pc.
  apply (resample_identity target_count pc (World 0 [])).
  vm_compute. reflexivity.
Defined.

Lemma resample_cardinality_witness :
  let pc : matrix float64 := Matrix [map of_Z [1; 2; 3; 0; 0; 0]%Z] 6 in
  exists out w',
    resample_to target_count pc (World 0 []) = (Ok out, w')
    /\ nrows out = target_count.
Proof.
  intro pc.
  apply (resample_cardinality target_count pc (World 0 []));
    vm_compute; lia.
Defined.

(** ** The format resolver and the colour padding (lines 70-89) *)

Section FormatResolver.
Context {F : Type} `{Scalar F}.







End FormatResolver.


(** ** The converter around the format check (lines 60-82) *)

Section Converter.
Context {F : Type} `{Scalar F} {G : Type} `{RandomState G}.

Lemma saved_app (l1 l2 : list (@event F)) :
  saved (l1 ++ l2) = saved l1 ++ saved l2.
Proof. unfold saved. apply flat_map_app. Qed.



(** C10. A file with exactly one row loads as an array that is not
    two-dimensional, so it has no [shape[1]]; the converter raises
    [IndexError] right after its two opening messages, before any
    format is looked at, and saves nothing. *)
Theorem single_row_raises
        (fs : file_system) (input_file output_dir : string)
        (add_color_padding : bool) (w : world) (row : list F) :
  fs_exists fs input_file = true ->
  fs_table fs input_file = [row] ->
  let out := convert_bridge_data fs input_file output_dir
                                 add_color_padding w in
  (exists data,
      loadtxt [row] = Ok data
      /\ length (shape data) <= 1
      /\ getitem (shape data) 1 = Raise IndexError)
  /\ out = (Raise IndexError,
            World (rng w)
                  (log w ++ [Print (MsgConverting input_file);
                             Print (MsgSource input_file)]))
  /\ saved (log (snd out)) = saved (log w).
Proof.
  intros Hex Htab out.
  assert (E : out = (Raise IndexError,
            World (rng w)
                  (log w ++ [Print (MsgConverting input_file);
                             Print (MsgSource input_file)]))).
  { subst out. unfold convert_bridge_data. rewrite Hex, Htab. simpl.
    unfold bindM, print, emit, lift, ret. simpl.
    destruct row as [|x [|y row]]; simpl; now rewrite <- !app_assoc. }
  split; [|split; [exact E|]].
  - destruct row as [|x [|y row]]; eexists; (split; [reflexivity|]);
      simpl; split; (lia || reflexivity).
  - rewrite E. simpl. rewrite saved_app. simpl. apply app_nil_r.
Qed.

(** Nothing is saved either when the loaded array is not
    two-dimensional (a file of one row or one column, an empty file) or
    when loading fails: whatever is not a table of 6 or 11 columns
    leaves no artifact. *)
Lemma unrecognised_input_saves_nothing
      (fs : file_system) (input_file output_dir : string)
      (add_color_padding : bool) (w : world) :
  (forall data,
      loadtxt (fs_table fs input_file) = Ok (A2 data) ->
      ncols data <> 6 /\ ncols data <> 11) ->
  saved (log (snd (convert_bridge_data fs input_file output_dir
                                       add_color_padding w)))
  = saved (log w).
Proof.
  intros Hschema. unfold convert_bridge_data.
  destruct (fs_exists fs input_file); cbn [negb].
  - unfold bindM, print, emit, lift, ret, raise. cbn -[saved].
    destruct (loadtxt (fs_table fs input_file)) as [[x|v|data]|e] eqn:Hload;
      cbn -[saved].
    + rewrite !saved_app. cbn. now rewrite !app_nil_r.
    + destruct v; cbn -[saved]; rewrite !saved_app; cbn;
        now rewrite !app_nil_r.
    + destruct (Hschema data eq_refl) as [H6 H11].
      destruct (rows data) as [|r rs] eqn:Er; cbn -[saved].
      * rewrite !saved_app. cbn. now rewrite !app_nil_r.
      * unfold resolve_format.
        replace (ncols data =? 11) with false
          by (symmetry; now apply Nat.eqb_neq).
        replace (ncols data =? 6) with false
          by (symmetry; now apply Nat.eqb_neq).
        cbn -[saved]. rewrite !saved_app. cbn. now rewrite !app_nil_r.
    + rewrite !saved_app. cbn. now rewrite !app_nil_r.
  - unfold print, emit. cbn -[saved]. rewrite saved_app. cbn.
    apply app_nil_r.
Qed.

End Converter.


Lemma single_row_raises_witness :
  let row : list float64 := map of_Z [1; 2; 3; 4; 5; 6]%Z in
  let fs := FileSystem (fun _ => true) (fun _ => [row]) in
  let w : world := World 0 [] in
  let out := convert_bridge_data fs "scan.xyz" "npy" false w in
  (exists data,
      loadtxt [row] = Ok data
      /\ length (shape data) <= 1
      /\ getitem (shape data) 1 = Raise IndexError)
  /\ out = (Raise IndexError,
            World 0 [Print (MsgConverting "scan.xyz");
                     Print (MsgSource "scan.xyz")])
  /\ saved (log (snd out)) = [].
Proof.
  intros row fs w.
  apply (single_row_raises fs "scan.xyz" "npy" false w row); reflexivity.
Defined.

(** ** Merging the leg scans (run_simulations.py, lines 122-184) *)

Section Merge.





Lemma process_line_all_lines (st st' : merge_state) (line : string) :
  process_line st line = Ok st' ->
  all_lines st' = all_lines st ++ leg_rows [line].
Proof.
  unfold process_line, leg_rows. cbn [map filter].
  destruct (String.eqb (strip line) EmptyString); cbn [negb].
  - intros [= <-]. now rewrite app_nil_r.
  - destruct (getitem (split (strip line)) 8) as [field|]; cbn [bind];
      [|discriminate].
    destruct (py_int field); cbn [bind]; [|discriminate].
    now intros [= <-].
Qed.

Lemma leg_rows_cons (line : string) (lines : list string) :
  leg_rows (line :: lines) = leg_rows [line] ++ leg_rows lines.
Proof.
  unfold leg_rows. cbn [map filter].
  now destruct (String.eqb (strip line) EmptyString).
Qed.

Lemma process_lines_all_lines (lines : list string) :
  forall st st',
    process_lines st lines = Ok st' ->
    all_lines st' = all_lines st ++ leg_rows lines.
Proof.
  induction lines as [|l lines IH]; simpl; intros st st' E.
  - inversion E. now rewrite app_nil_r.
  - destruct (process_line st l) as [st1|] eqn:E1; simpl in E;
      [|discriminate].
    rewrite (IH _ _ E), (process_line_all_lines _ _ _ E1).
    rewrite (leg_rows_cons l lines).
    now rewrite <- app_assoc.
Qed.

(** A successful merge collects the rows file by file, in the order of
    [files], and line by line within a file. *)
Lemma process_files_all_lines (d : scan_dir) (files : list string) :
  forall st st',
    process_files d st files = Ok st' ->
    all_lines st'
    = all_lines st ++ concat (map (fun f => leg_rows (readlines d f)) files).
Proof.
  induction files as [|f files IH]; simpl; intros st st' E.
  - inversion E. now rewrite app_nil_r.
  - destruct (process_lines st (readlines d f)) as [st1|] eqn:E1;
      simpl in E; [|discriminate].
    rewrite (IH _ _ E), (process_lines_all_lines _ _ _ E1).
    now rewrite <- app_assoc.
Qed.

Lemma process_files_ext (d1 d2 : scan_dir) (files : list string) :
  (forall f, In f files -> readlines d1 f = readlines d2 f) ->
  forall st, process_files d1 st files = process_files d2 st files.
Proof.
  induction files as [|f files IH]; simpl; intros Hsame st; [reflexivity|].
  rewrite <- (Hsame f (or_introl eq_refl)).
  destruct (process_lines st (readlines d1 f)); simpl; [|reflexivity].
  apply IH. intros g Hg. apply Hsame. now right.
Qed.

(** C3, as the code has it. The leg files are processed in the order in
    which [os.listdir] returns their names (nothing sorts them).  Two
    runs that see the leg names in the same order, with the same
    contents, behave identically: same outcome, same actions, hence the
    same merged bytes.  A run that succeeds writes exactly one merged
    file: the rows of the leg files, file after file in listing order and
    line after line within each file, joined by newlines and closed by
    one. *)
Theorem merge_follows_listing_order
        (d1 d2 : scan_dir)
        (latest_scan_dir scan_output_dir bridge_id : string)
        (run_segmentation convert_to_npy : bool) :
  leg_names d1 = leg_names d2 ->
  (forall fname,
      In fname (leg_names d1) ->
      readlines d1 (Paths.join latest_scan_dir fname)
      = readlines d2 (Paths.join latest_scan_dir fname)) ->
  merge_leg_scans d1 latest_scan_dir scan_output_dir bridge_id
                  run_segmentation convert_to_npy
  = merge_leg_scans d2 latest_scan_dir scan_output_dir bridge_id
                    run_segmentation convert_to_npy
  /\ (forall acts,
        merge_leg_scans d1 latest_scan_dir scan_output_dir bridge_id
                        run_segmentation convert_to_npy = (Ok tt, acts) ->
        written acts
        = [(merged_file scan_output_dir bridge_id,
            (join_lines
               (concat (map (fun fname =>
                               leg_rows (readlines d1
                                           (Paths.join latest_scan_dir fname)))
                            (leg_names d1)))
             ++ String "010"%char EmptyString)%string)]).
Proof.
  intros Hnames Hsame. split.
  - unfold merge_leg_scans, xyz_files. fold (leg_names d1) (leg_names d2).
    rewrite <- Hnames.
    rewrite (process_files_ext d1 d2); [reflexivity|].
    intros f Hf. apply in_map_iff in Hf as (fname & <- & Hin).
    now apply Hsame.
  - intros acts. unfold merge_leg_scans, xyz_files. fold (leg_names d1).
    destruct (process_files d1 (MergeState [] []) _) as [st|] eqn:E;
      [|discriminate].
    intros [= <-].
    apply process_files_all_lines in E. simpl in E.
    rewrite E, map_map.
    destruct run_segmentation, convert_to_npy; reflexivity.
Qed.

End Merge.


(** The two failures are the ones Python raises: [parts[8]] out of
    range, and [int] on a field that is not an integer. *)
Example short_row_is_index_error :
  merge_leg_scans (Sample.broken_session Sample.short_row)
                  "scan" "out" "7" true true
  = (Raise IndexError, []).
Proof. reflexivity. Qed.

Example bad_key_row_is_value_error :
  merge_leg_scans (Sample.broken_session Sample.bad_key_row)
                  "scan" "out" "7" true true
  = (Raise ValueError, []).
Proof. reflexivity. Qed.

Example merge_listed_ab :
  merge_leg_scans Sample.listed_ab "scan" "out" "7" true false
  = (Ok tt,
     [ Makedirs "out/merged/TLS_7";
       WriteText "out/merged/TLS_7/7_complete.xyz"
         ("1.0 2.0 3.0 0.5 0.0 1 1 0 3 0 12.5" ++ Sample.nl
          ++ "4.0 5.0 6.0 0.7 0.0 1 1 0 4 0 12.6" ++ Sample.nl);
       ReportMerged "7" 2;
       ReportRunningSegmentation;
       Makedirs "out/segmented";
       Makedirs "out/segmented/TLS_7";
       SemanticSegmentation
         [(3%Z, ["1.0 2.0 3.0 0.5 0.0 1 1 0 3 0 12.5"]);
          (4%Z, ["4.0 5.0 6.0 0.7 0.0 1 1 0 4 0 12.6"])]
         "out/segmented/TLS_7";
       ReportSegmentationCompleted ])%string.
Proof. reflexivity. Qed.

(** C3, as stated, fails: the same directory (same names, same
    contents), listed by the operating system in two different orders,
    gives two different merged files; in the second run the legs are
    not processed in lexical order. *)
Lemma merge_depends_on_listing_order :
  Permutation (listdir Sample.listed_ab) (listdir Sample.listed_ba)
  /\ (forall path,
         readlines Sample.listed_ab path = readlines Sample.listed_ba path)
  /\ leg_names Sample.listed_ba
     = ["leg001_points.xyz"; "leg000_points.xyz"]%string
  /\ written (snd (merge_leg_scans Sample.listed_ab
                                   "scan" "out" "7" false false))
     <> written (snd (merge_leg_scans Sample.listed_ba
                                      "scan" "out" "7" false false)).
Proof.
  split; [|split; [|split]].
  - simpl. apply perm_trans with
      (["leg001_points.xyz"; "leg000_points.xyz"; "notes.txt"]%string).
    + apply perm_swap.
    + apply perm_skip, perm_swap.
  - reflexivity.
  - reflexivity.
  - intro E. vm_compute in E. discriminate E.
Qed.

Lemma merge_follows_listing_order_witness :
  let d1 := Sample.listed_ab in
  let d2 := ScanDir ["README"; "leg000_points.xyz"; "leg001_points.xyz"]%string
                    Sample.session_files in
  merge_leg_scans d1 "scan" "out" "7" true true
  = merge_leg_scans d2 "scan" "out" "7" true true
  /\ (forall acts,
        merge_leg_scans d1 "scan" "out" "7" true true = (Ok tt, acts) ->
        written acts
        = [(merged_file "out" "7",
            (join_lines
               (concat (map (fun fname =>
                               leg_rows (readlines d1
                                           (Paths.join "scan" fname)))
                            (leg_names d1)))
             ++ String "010"%char EmptyString)%string)]).
Proof.
  intros d1 d2.
  apply (merge_follows_listing_order d1 d2 "scan" "out" "7" true true).
  - reflexivity.
  - intros fname _. reflexivity.
Defined.

(** ** Farthest-point sampling and what the resampler does instead *)

Section FarthestPoint.
Context {F : Type} `{Scalar F}.

(** The first two selected rows of a farthest-point sample: the initial
    row, then the row at the [argmax] of the distances to it. *)
Lemma fps_from_first_two (point : matrix F) (n farthest second : nat)
      (centroid : list F) (out : matrix F) :
  getitem (map (slice 0 3) (rows point)) farthest = Ok centroid ->
  np_argmax
    (update_distance
       (repeat (f_mul (f_of_Z 1) (f_of_Z 10000000000)) (nrows point))
       (map (sq_dist centroid) (map (slice 0 3) (rows point))))
  = Ok second ->
  fps_from point (S (S n)) farthest = Ok out ->
  exists r0 r1 rest,
    rows out = r0 :: r1 :: rest
    /\ getitem (rows point) farthest = Ok r0
    /\ getitem (rows point) second = Ok r1.
Proof.
  intros Hc Harg. unfold fps_from.
  cbn [fps_loop]. rewrite Hc. cbn [bind]. rewrite Harg. cbn [bind].
  clear Hc Harg.
  set (xyz := map (slice 0 3) (rows point)).
  set (d1 := update_distance _ _).
  destruct (getitem xyz second) as [c2|]; cbn [bind]; [|discriminate].
  destruct (np_argmax _) as [third|]; cbn [bind]; [|discriminate].
  destruct (fps_loop xyz n third _) as [cs|]; cbn [bind]; [|discriminate].
  cbn [take_rows].
  destruct (getitem (rows point) farthest) as [r0|]; cbn [bind];
    [|discriminate].
  destruct (getitem (rows point) second) as [r1|]; cbn [bind];
    [|discriminate].
  destruct (take_rows (rows point) cs) as [rest|]; cbn [bind];
    [|discriminate].
  intros [= <-]. now exists r0, r1, rest.
Qed.

End FarthestPoint.

Section RandomDownsampling.
Context {F : Type} `{Scalar F} {G : Type} `{RandomState G}.

(** C1, as the code has it. With more than [K] rows the resampler
    announces a random sampling, asks [np.random.choice] for [K]
    positions without replacement and returns the rows at those
    positions: [K] pairwise distinct, in-range positions chosen by the
    random state alone, whatever the coordinates are. *)
Theorem resample_down_is_random_choice
        (K : nat) (pc : matrix F) (w : world) :
  K < nrows pc ->
  exists idx w',
    resample_to K pc w
    = (Ok (Matrix (map (fun i => nth i (rows pc) []) idx) (ncols pc)), w')
    /\ random_choice (nrows pc) K false (rng w) = (Ok idx, rng w')
    /\ length idx = K
    /\ NoDup idx
    /\ Forall (fun i => i < nrows pc) idx
    /\ log w' = log w ++ [Print (MsgRandomSampling (nrows pc));
                          Print MsgSamplingTime].
Proof.
  intros HK.
  exists (fst (draw_choice (nrows pc) K false (rng w))).
  eexists. split; [apply resample_to_down; exact HK|].
  cbn [rng log]. repeat split.
  - unfold random_choice.
    replace (nrows pc =? 0) with false by (symmetry; apply Nat.eqb_neq; lia).
    replace (nrows pc <? K) with false by (symmetry; apply Nat.ltb_ge; lia).
    cbn. now destruct (draw_choice (nrows pc) K false (rng w)).
  - apply draw_choice_length.
  - apply draw_choice_distinct. lia.
  - apply draw_choice_range; [lia | intros _; lia].
Qed.

End RandomDownsampling.

Lemma resample_down_is_random_choice_witness :
  let pc : matrix float64 :=
    Matrix (map (fun z => map of_Z [z; 0; 0; 0; 0; 0]%Z) [0; 1; 2; 3; 4]%Z) 6 in
  let w : world := World 1 [] in
  exists idx w',
    resample_to 3 pc w
    = (Ok (Matrix (map (fun i => nth i (rows pc) []) idx) (ncols pc)), w')
    /\ random_choice (nrows pc) 3 false (rng w) = (Ok idx, rng w')
    /\ length idx = 3
    /\ NoDup idx
    /\ Forall (fun i => i < nrows pc) idx
    /\ log w' = log w ++ [Print (MsgRandomSampling (nrows pc));
                          Print MsgSamplingTime].
Proof.
  intros pc w.
  apply (resample_down_is_random_choice 3 pc w).
  vm_compute. lia.
Defined.

(** *** The counterexample: 8193 rows, target 8192 *)

Lemma cloud_8193_xyz_at (farthest : nat) (centroid : list float64) :
  getitem (map (slice 0 3) (rows Sample.cloud_8193)) farthest = Ok centroid ->
  (farthest = 0 /\ centroid = map of_Z [0; 0; 0]%Z)
  \/ (farthest <> 0 /\ centroid = map of_Z [1; 0; 0]%Z).
Proof.
  unfold getitem, Sample.cloud_8193. cbn [rows map].
  destruct farthest as [|f]; cbn [nth_error].
  - intros [= <-]. left. split; reflexivity.
  - rewrite map_repeat.
    destruct (nth_error _ f) as [c|] eqn:E; [|discriminate].
    intros [= <-]. right. split; [discriminate|].
    apply nth_error_In, repeat_spec in E. subst c. reflexivity.
Qed.

Lemma cloud_8193_farthest_from_origin :
  np_argmax
    (update_distance
       (repeat (f_mul (f_of_Z 1) (f_of_Z 10000000000))
               (nrows Sample.cloud_8193))
       (map (sq_dist (map of_Z [0; 0; 0]%Z))
            (map (slice 0 3) (rows Sample.cloud_8193))))
  = Ok 1.
Proof. vm_compute. reflexivity. Qed.

Lemma cloud_8193_farthest_from_unit :
  np_argmax
    (update_distance
       (repeat (f_mul (f_of_Z 1) (f_of_Z 10000000000))
               (nrows Sample.cloud_8193))
       (map (sq_dist (map of_Z [1; 0; 0]%Z))
            (map (slice 0 3) (rows Sample.cloud_8193))))
  = Ok 0.
Proof. vm_compute. reflexivity. Qed.

(** What the resampler returns on that cloud when the random state
    hands out the positions 1, ..., 8192. *)
Lemma cloud_8193_resampled :
  fst (resample Sample.cloud_8193 (World 1 []))
  = Ok (Matrix (repeat Sample.unit_row 8192) 6).
Proof. vm_compute. reflexivity. Qed.

(** C1, as stated, fails. On a cloud of 8193 rows (the origin, then
    8192 copies of the point (1,0,0)) the resampler returns 8192 copies
    of (1,0,0).  No farthest-point sample of that cloud looks like this:
    whatever the initial index, the origin is among its first two rows. *)
Lemma resample_is_not_farthest_point_sampling :
  target_count < nrows Sample.cloud_8193
  /\ forall farthest,
      fst (resample Sample.cloud_8193 (World 1 []))
      <> fps_from Sample.cloud_8193 target_count farthest.
Proof.
  split.
  - apply Nat.ltb_lt. vm_compute. reflexivity.
  - intros farthest E. rewrite cloud_8193_resampled in E. symmetry in E.
    change target_count with (S (S 8190)) in E.
    destruct (getitem (map (slice 0 3) (rows Sample.cloud_8193)) farthest)
      as [centroid|e] eqn:Hc.
    + destruct (cloud_8193_xyz_at _ _ Hc) as [[-> ->] | [Hne ->]].
      * destruct (fps_from_first_two _ _ _ _ _ _ Hc
                    cloud_8193_farthest_from_origin E)
          as (r0 & r1 & rest & Hrows & H0 & _).
        cbn [rows repeat] in Hrows.
        change 8192 with (S (S 8190)) in Hrows. cbn [repeat] in Hrows.
        injection Hrows as <- _ _. vm_compute in H0. discriminate H0.
      * destruct (fps_from_first_two _ _ _ _ _ _ Hc
                    cloud_8193_farthest_from_unit E)
          as (r0 & r1 & rest & Hrows & _ & H1).
        cbn [rows repeat] in Hrows.
        change 8192 with (S (S 8190)) in Hrows. cbn [repeat] in Hrows.
        injection Hrows as _ <- _. vm_compute in H1. discriminate H1.
    + unfold fps_from in E. cbn [fps_loop] in E. rewrite Hc in E.
      discriminate E.
Qed.

(** ** The normalizer (pc_norm, lines 34-45) *)

Section Normalizer.
Context {F : Type} `{Scalar F}.

Lemma combine_map_same {A B C : Type} (f : A -> B) (g : A -> C) (l : list A) :
  combine (map f l) (map g l) = map (fun x => (f x, g x)) l.
Proof. induction l as [|x l IH]; simpl; [reflexivity | now rewrite IH]. Qed.

Lemma centered_rows (pc : matrix F) :
  centered pc = map (center_row (centroid_of pc)) (rows pc).
Proof. unfold centered, sub_rows, spatial. now rewrite map_map. Qed.

(** [pc_norm] succeeds exactly when the divisor exists, and then works
    row by row. *)
Lemma pc_norm_rows (pc : matrix F) (m : F) :
  norm_divisor pc = Ok m ->
  pc_norm pc
  = Ok (Matrix
          (map (fun r => map (fun x => f_div x m) (center_row (centroid_of pc) r)
                         ++ skipn 3 r)
               (rows pc))
          (ncols pc)).
Proof.
  unfold norm_divisor, pc_norm.
  fold (spatial pc). fold (centroid_of pc). fold (centered pc).
  intros ->. cbn [bind]. f_equal. f_equal.
  unfold concatenate_axis1. rewrite centered_rows, map_map.
  rewrite combine_map_same, map_map. reflexivity.
Qed.

Lemma length_mean_axis0 (width : nat) (a : list (list F)) :
  length (mean_axis0 width a) = width.
Proof. unfold mean_axis0. now rewrite length_map, length_seq. Qed.

Lemma length_slice_0_3 (r : list F) : length (slice 0 3 r) = Nat.min 3 (length r).
Proof. unfold slice. cbn [skipn Nat.sub]. apply length_firstn. Qed.

Lemma length_center_row (pc : matrix F) (r : list F) :
  length r = ncols pc ->
  length (center_row (centroid_of pc) r) = Nat.min 3 (ncols pc).
Proof.
  intros Hr. unfold center_row, centroid_of.
  rewrite length_map, length_combine, length_slice_0_3, length_mean_axis0.
  lia.
Qed.

(** A row made of [k <= 3] spatial entries followed by what the source
    row has from column 3 on: the slices take it apart again. *)
Lemma split_normalized_row (xr r : list F) :
  length xr = Nat.min 3 (length r) ->
  slice 0 3 (xr ++ skipn 3 r) = xr
  /\ skipn 3 (xr ++ skipn 3 r) = skipn 3 r
  /\ length (xr ++ skipn 3 r) = length r.
Proof.
  intros Hlen. unfold slice. cbn [Nat.sub].
  change (skipn 0 (xr ++ skipn 3 r)) with (xr ++ skipn 3 r).
  destruct (Nat.le_gt_cases 3 (length r)) as [Hge | Hlt].
  - assert (Hx : length xr = 3) by lia.
    rewrite <- Hx at 1 3.
    rewrite firstn_app, firstn_all, Nat.sub_diag, firstn_O, app_nil_r.
    rewrite skipn_app, skipn_all, Nat.sub_diag.
    repeat split; try reflexivity.
    rewrite length_app, length_skipn. lia.
  - assert (Hnil : skipn 3 r = []) by (apply skipn_all2; lia).
    rewrite Hnil, app_nil_r.
    repeat split.
    + apply firstn_all2. lia.
    + apply skipn_all2. lia.
    + lia.
Qed.

(** Shape and attribute channels, for any arithmetic: the output has the
    rows and columns of the input, and from column 3 on every row is the
    input row. *)
Lemma pc_norm_attributes (pc : matrix F) (m : F) :
  rectangular pc ->
  norm_divisor pc = Ok m ->
  exists out,
    pc_norm pc = Ok out
    /\ nrows out = nrows pc
    /\ ncols out = ncols pc
    /\ rectangular out
    /\ map (skipn 3) (rows out) = map (skipn 3) (rows pc)
    /\ spatial out
       = map (map (fun x => f_div x m)) (centered pc).
Proof.
  intros Hrect Hm. eexists. split; [apply pc_norm_rows, Hm|].
  unfold rectangular in Hrect. rewrite Forall_forall in Hrect.
  assert (Hrow : forall r, In r (rows pc) ->
            length (map (fun x => f_div x m) (center_row (centroid_of pc) r))
            = Nat.min 3 (length r)).
  { intros r Hr. rewrite length_map, length_center_row by now apply Hrect.
    now rewrite (Hrect r Hr). }
  unfold nrows, spatial, rectangular. cbn [rows ncols].
  split; [apply length_map|]. split; [reflexivity|].
  split; [|split].
  - apply Forall_forall. intros r' Hr'.
    apply in_map_iff in Hr' as (r & <- & Hr).
    destruct (split_normalized_row _ r (Hrow r Hr)) as (_ & _ & ->).
    now apply Hrect.
  - rewrite map_map. apply map_ext_in. intros r Hr.
    now destruct (split_normalized_row _ r (Hrow r Hr)) as (_ & -> & _).
  - rewrite centered_rows, !map_map. apply map_ext_in. intros r Hr.
    now destruct (split_normalized_row _ r (Hrow r Hr)) as (-> & _ & _).
Qed.

End Normalizer.

(** *** Binary64: a zero divisor *)

Lemma div_by_zero_not_finite (x m : float64) :
  is_zero m = true -> isfinite (f_div x m) = false.
Proof.
  destruct m; try discriminate. intros _.
  destruct x; reflexivity.
Qed.

(** C2, as the code has it. When the divisor [m] is a zero, [pc_norm]
    raises nothing: it returns an array of the same shape whose
    attribute channels are those of the input and whose spatial entries
    are all non-finite (NaN or an infinity). *)
Theorem pc_norm_zero_divisor (pc : matrix float64) (m : float64) :
  rectangular pc ->
  norm_divisor pc = Ok m ->
  is_zero m = true ->
  exists out,
    pc_norm pc = Ok out
    /\ nrows out = nrows pc
    /\ ncols out = ncols pc
    /\ map (skipn 3) (rows out) = map (skipn 3) (rows pc)
    /\ Forall (Forall (fun x => isfinite x = false)) (spatial out).
Proof.
  intros Hrect Hm Hzero.
  destruct (pc_norm_attributes pc m Hrect Hm)
    as (out & Hout & Hn & Hc & _ & Hattr & Hsp).
  exists out. repeat (split; [assumption|]).
  rewrite Hsp. apply Forall_forall. intros r Hr.
  apply in_map_iff in Hr as (r0 & <- & _).
  apply Forall_forall. intros x Hx.
  apply in_map_iff in Hx as (x0 & <- & _).
  now apply div_by_zero_not_finite.
Qed.

Lemma pc_norm_zero_divisor_witness :
  exists out,
    pc_norm Sample.coincident = Ok out
    /\ nrows out = nrows Sample.coincident
    /\ ncols out = ncols Sample.coincident
    /\ map (skipn 3) (rows out) = map (skipn 3) (rows Sample.coincident)
    /\ Forall (Forall (fun x => isfinite x = false)) (spatial out).
Proof.
  apply (pc_norm_zero_divisor Sample.coincident (S754_zero false)).
  - repeat constructor.
  - vm_compute. reflexivity.
  - reflexivity.
Defined.

(** C2, as stated, fails: for two coincident points the divisor is 0,
    yet [pc_norm] returns normally, and what it returns has NaN in
    every spatial entry. *)
Lemma pc_norm_coincident_points_nan :
  norm_divisor Sample.coincident = Ok (S754_zero false)
  /\ pc_norm Sample.coincident
     = Ok (Matrix [ [S754_nan; S754_nan; S754_nan; of_Z 7; of_Z 8; of_Z 9];
                    [S754_nan; S754_nan; S754_nan; of_Z 7; of_Z 8; of_Z 9] ]
                  6)
  /\ isfinite S754_nan = false.
Proof. repeat split; vm_compute; reflexivity. Qed.

(** The converter goes on and saves that array: a file of two
    coincident coloured points is upsampled to 8192 rows, normalised to
    NaN coordinates and written out. *)
Example convert_coincident_points_saves_nan :
  let table := [map of_Z [1; 2; 3; 255; 0; 0]%Z;
                map of_Z [1; 2; 3; 255; 0; 0]%Z] in
  let fs := FileSystem (fun _ => true) (fun _ => table) in
  let out := convert_bridge_data fs "scans/bridge_12_complete.xyz" "npy"
                                 false (World 0 []) in
  fst out = Ok tt
  /\ saved (log (snd out))
     = [("npy/bridge_12_8192.npy"%string,
         Matrix (repeat [S754_nan; S754_nan; S754_nan;
                         to_f32 (of_Z 1); of_Z 0; of_Z 0] 8192) 6)].
Proof. split; vm_compute; reflexivity. Qed.

(** *** Binary64: rounding *)


(** *** Exact arithmetic *)

Import Exact.

Section ExactNormalizer.
Local Open Scope R_scope.
















End ExactNormalizer.




(* ===================================================================== *)
(** * Further properties                                                 *)
(* ===================================================================== *)

(** ** More on the merge: success and the grouping *)

Section MergeSuccess.





End MergeSuccess.

Section GroupingInvariant.


Lemma dict_append_keys (k : Z) (line : string) (d : component_dict) :
  forall k', In k' (map fst (dict_append k line d))
             <-> k' = k \/ In k' (map fst d).
Proof.
  induction d as [|[k0 ls] d IH]; intros k'; cbn.
  - intuition congruence.
  - destruct (Z.eqb_spec k k0) as [->|Hne]; cbn.
    + intuition congruence.
    + rewrite IH. intuition congruence.
Qed.

Lemma dict_append_NoDup (k : Z) (line : string) (d : component_dict) :
  NoDup (map fst d) -> NoDup (map fst (dict_append k line d)).
Proof.
  induction d as [|[k0 ls] d IH]; cbn; intros Hnd.
  - constructor; [intros [] | constructor].
  - inversion Hnd as [|? ? Hnotin Hnd']; subst.
    destruct (Z.eqb_spec k k0) as [->|Hne]; cbn.
    + now constructor.
    + constructor; [|now apply IH].
      rewrite dict_append_keys. intros [E | Hin]; [congruence | contradiction].
Qed.

Lemma dict_append_nonempty (k : Z) (line : string) (d : component_dict) :
  (forall g, In g d -> snd g <> []) ->
  forall g, In g (dict_append k line d) -> snd g <> [].
Proof.
  induction d as [|[k0 ls] d IH]; cbn; intros Hne g Hg.
  - destruct Hg as [<- | []]. discriminate.
  - destruct (Z.eqb_spec k k0) as [->|Hk]; cbn in Hg.
    + destruct Hg as [<- | Hg]; [|apply Hne; now right].
      cbn. destruct ls; discriminate.
    + destruct Hg as [<- | Hg]; [apply (Hne (k0, ls)); now left|].
      apply IH; [|exact Hg]. intros g' Hg'. apply Hne. now right.
Qed.

Lemma group_of_dict_append (k k' : Z) (line : string) (d : component_dict) :
  group_of k' (dict_append k line d)
  = group_of k' d ++ (if Z.eqb k k' then [line] else []).
Proof.
  unfold group_of.
  induction d as [|[k0 ls] d IH]; cbn.
  - rewrite (Z.eqb_sym k' k). now destruct (Z.eqb k k').
  - destruct (Z.eqb_spec k k0) as [->|Hk]; cbn.
    + destruct (Z.eqb_spec k' k0) as [->|Hk']; cbn.
      * now rewrite Z.eqb_refl.
      * destruct (Z.eqb_spec k0 k') as [E|_]; [congruence|].
        now rewrite app_nil_r.
    + destruct (Z.eqb_spec k' k0) as [->|Hk']; cbn.
      * destruct (Z.eqb_spec k k0) as [E|_]; [congruence|].
        now rewrite app_nil_r.
      * exact IH.
Qed.

Lemma dict_append_permutation (k : Z) (line : string) (d : component_dict) :
  Permutation (concat (map snd (dict_append k line d)))
              (concat (map snd d) ++ [line]).
Proof.
  induction d as [|[k0 ls] d IH]; cbn.
  - reflexivity.
  - destruct (Z.eqb k k0); cbn.
    + rewrite <- !app_assoc. apply Permutation_app_head.
      apply Permutation_app_comm.
    + rewrite <- app_assoc. now apply Permutation_app_head.
Qed.

Lemma process_line_grouped (st st' : merge_state) (line : string) :
  grouped st -> process_line st line = Ok st' -> grouped st'.
Proof.
  intros (Hnd & Hne & Hgrp & Hperm & Hkeys). unfold process_line.
  destruct (String.eqb (strip line) EmptyString).
  - intros [= <-]. repeat split; assumption.
  - destruct (getitem (split (strip line)) 8) as [field|] eqn:Hf;
      cbn [bind]; [|discriminate].
    destruct (py_int field) as [k|] eqn:Hk; cbn [bind]; [|discriminate].
    intros [= <-]. unfold grouped. cbn [component_files all_lines].
    split; [now apply dict_append_NoDup|].
    split; [now apply dict_append_nonempty|].
    split.
    + intros k'. rewrite group_of_dict_append, filter_app, Hgrp.
      f_equal. cbn [filter]. unfold has_key, row_key.
      rewrite Hf. cbn [bind]. rewrite Hk.
      now destruct (Z.eqb k k').
    + split.
      * rewrite dict_append_permutation. now apply Permutation_app_tail.
      * apply Forall_app. split; [exact Hkeys|].
        constructor; [|constructor]. exists k. unfold row_key.
        rewrite Hf. cbn [bind]. exact Hk.
Qed.

Lemma process_lines_grouped (lines : list string) :
  forall st st',
    grouped st -> process_lines st lines = Ok st' -> grouped st'.
Proof.
  induction lines as [|l lines IH]; cbn [process_lines]; intros st st' Hg.
  - now intros [= <-].
  - destruct (process_line st l) as [st1|] eqn:E1; cbn [bind];
      [|discriminate].
    apply IH. eapply process_line_grouped; eassumption.
Qed.

Lemma process_files_grouped (d : scan_dir) (files : list string) :
  forall st st',
    grouped st -> process_files d st files = Ok st' -> grouped st'.
Proof.
  induction files as [|f files IH]; cbn [process_files]; intros st st' Hg.
  - now intros [= <-].
  - destruct (process_lines st (readlines d f)) as [st1|] eqn:E1;
      cbn [bind]; [|discriminate].
    apply IH. eapply process_lines_grouped; eassumption.
Qed.

Lemma grouped_start : grouped (MergeState [] []).
Proof.
  unfold grouped. cbn. repeat split; try constructor.
  intros g [].
Qed.

(** The grouping a finished merge holds is a partition of the merged
    rows by component identifier: the keys are pairwise distinct, no
    group is empty, and the group of a key is exactly the merged rows
    carrying that key, in merge order; every merged row has a key and
    sits in the group of its key. *)
Theorem component_groups_partition
        (d : scan_dir) (files : list string) (st : merge_state) :
  process_files d (MergeState [] []) files = Ok st ->
  NoDup (map fst (component_files st))
  /\ (forall g, In g (component_files st) -> snd g <> [])
  /\ (forall k, group_of k (component_files st)
                = filter (has_key k) (all_lines st))
  /\ (forall row, In row (all_lines st) ->
                  exists k, row_key row = Ok k
                            /\ In row (group_of k (component_files st))).
Proof.
  intros Hst.
  destruct (process_files_grouped d files _ _ grouped_start Hst)
    as (Hnd & Hne & Hgrp & _ & Hkeys).
  split; [exact Hnd|]. split; [exact Hne|]. split; [exact Hgrp|].
  intros row Hrow. rewrite Forall_forall in Hkeys.
  destruct (Hkeys row Hrow) as [k Hk]. exists k. split; [exact Hk|].
  rewrite Hgrp. apply filter_In. split; [exact Hrow|].
  unfold has_key. rewrite Hk. apply Z.eqb_refl.
Qed.

(** Taken together the groups hold every merged row exactly once: their
    concatenation is a rearrangement of the merged rows, so the group
    sizes add up to the number of merged rows. *)
Theorem component_groups_cover
        (d : scan_dir) (files : list string) (st : merge_state) :
  process_files d (MergeState [] []) files = Ok st ->
  Permutation (concat (map snd (component_files st))) (all_lines st)
  /\ list_sum (map (fun g => length (snd g)) (component_files st))
     = length (all_lines st).
Proof.
  intros Hst.
  destruct (process_files_grouped d files _ _ grouped_start Hst)
    as (_ & _ & _ & Hperm & _).
  split; [exact Hperm|].
  rewrite <- (Permutation_length Hperm), length_concat, map_map.
  reflexivity.
Qed.

End GroupingInvariant.

(** ** More on the resampler and the normaliser *)

Section ResamplerMore.
Context {F : Type} `{Scalar F} {G : Type} `{RandomState G}.

Lemma rows_at_positions (rs : list (list F)) (idx : list nat) :
  Forall (fun i => i < length rs) idx ->
  incl (map (fun i => nth i rs []) idx) rs.
Proof.
  intros Hidx r Hr. apply in_map_iff in Hr as (i & <- & Hi).
  rewrite Forall_forall in Hidx. apply nth_In. now apply Hidx.
Qed.

Lemma picked_rows_shape (pc : matrix F) (idx : list nat) (K : nat) :
  length idx = K ->
  Forall (fun i => i < nrows pc) idx ->
  let out := Matrix (map (fun i => nth i (rows pc) []) idx) (ncols pc) in
  nrows out = K
  /\ incl (rows out) (rows pc)
  /\ ncols out = ncols pc
  /\ (rectangular pc -> rectangular out).
Proof.
  intros Hlen Hidx out.
  assert (Hincl : incl (rows out) (rows pc))
    by (apply rows_at_positions; exact Hidx).
  split; [unfold nrows; cbn [rows out]; now rewrite length_map|].
  split; [exact Hincl|]. split; [reflexivity|].
  unfold rectangular. rewrite !Forall_forall.
  intros Hr r Hin. apply Hr, Hincl, Hin.
Qed.

(** The resampler never makes up a point: on a set with at least one
    row it succeeds, every row it returns is a row of the input, the
    column count is kept, a rectangular input gives a rectangular
    output, and only messages are added to the log. *)
Theorem resample_keeps_input_rows (K : nat) (pc : matrix F) (w : world) :
  1 <= nrows pc ->
  exists out w',
    resample_to K pc w = (Ok out, w')
    /\ (nrows out = K
        /\ incl (rows out) (rows pc)
        /\ ncols out = ncols pc
        /\ (rectangular pc -> rectangular out))
    /\ saved (log w') = saved (log w).
Proof.
  intros HN.
  destruct (Nat.lt_trichotomy K (nrows pc)) as [Hlt | [Heq | Hgt]].
  - eexists; eexists. split; [now apply resample_to_down|].
    split.
    + apply picked_rows_shape; [apply draw_choice_length|].
      apply draw_choice_range; [lia | intros _; lia].
    + cbn [log]. rewrite saved_app. cbn. apply app_nil_r.
  - exists pc, w. split.
    + unfold resample_to. rewrite Heq. now rewrite Nat.ltb_irrefl.
    + repeat split; try easy.
  - eexists; eexists. split; [apply resample_to_up; lia|].
    split.
    + apply picked_rows_shape; [apply draw_choice_length|].
      apply draw_choice_range; [lia | discriminate].
    + cbn [log]. rewrite saved_app. cbn. apply app_nil_r.
Qed.

(** An empty point set cannot be resampled to a positive size: the
    upsampling branch announces itself and [np.random.choice] raises
    [ValueError]; the random state is not advanced. *)
Theorem resample_empty_raises (K : nat) (pc : matrix F) (w : world) :
  nrows pc = 0 -> 0 < K ->
  resample_to K pc w
  = (Raise ValueError, World (rng w) (log w ++ [Print (MsgUpsampling 0)])).
Proof.
  intros HN HK. unfold resample_to. rewrite HN.
  destruct K as [|K']; [lia|].
  unfold bindM, print, emit, with_rng, random_choice. reflexivity.
Qed.

End ResamplerMore.

Section NormalizerMore.
Context {F : Type} `{Scalar F}.

Lemma length_row_norms_centered (pc : matrix F) :
  length (row_norms (centered pc)) = nrows pc.
Proof.
  rewrite centered_rows. unfold row_norms, nrows. now rewrite !length_map.
Qed.

Lemma norm_divisor_exists (pc : matrix F) :
  0 < nrows pc -> exists m, norm_divisor pc = Ok m.
Proof.
  intros HN. unfold norm_divisor.
  pose proof (length_row_norms_centered pc) as Hlen.
  destruct (row_norms (centered pc)) as [|x t]; cbn in *; [lia|].
  eexists. reflexivity.
Qed.

(** [pc_norm] fails exactly on an array without rows ([np.max] of an
    empty array is a [ValueError]); on any other array it returns an
    array with the same number of rows. *)
Theorem pc_norm_fails_only_on_empty (pc : matrix F) :
  (nrows pc = 0 -> pc_norm pc = Raise ValueError)
  /\ (0 < nrows pc ->
      exists out, pc_norm pc = Ok out /\ nrows out = nrows pc).
Proof.
  split.
  - intros HN. unfold pc_norm, np_max.
    fold (spatial pc). fold (centroid_of pc). fold (centered pc).
    pose proof (length_row_norms_centered pc) as Hlen.
    destruct (row_norms (centered pc)) as [|x t]; cbn in *; [reflexivity|lia].
  - intros HN. destruct (norm_divisor_exists pc HN) as [m Hm].
    eexists. split; [apply pc_norm_rows, Hm|].
    unfold nrows. cbn [rows]. apply length_map.
Qed.

End NormalizerMore.

(** ** The converter from end to end *)

Section ConverterMore.
Context {F : Type} `{Scalar F} {G : Type} `{RandomState G}.










End ConverterMore.

(** ** Farthest-point sampling: totality, and what [np.argmax] picks *)

Lemma SFleb_total (x y : float64) :
  isnan x = false -> isnan y = false ->
  SFleb x y = true \/ SFleb y x = true.
Proof.
  unfold SFleb, SFcompare.
  destruct x as [sx|sx| |sx mx ex], y as [sy|sy| |sy my ey];
    try discriminate; intros _ _;
    try destruct sx; try destruct sy; auto.
  all: change (Pos.compare_cont Eq) with Pos.compare.
  all: destruct (Z.compare_spec ex ey), (Z.compare_spec ey ex);
       auto; try lia; subst.
  all: destruct (Pos.compare_spec mx my), (Pos.compare_spec my mx);
       cbn; auto; lia.
Qed.

Lemma SFleb_trans (x y z : float64) :
  SFleb x y = true -> SFleb y z = true -> SFleb x z = true.
Proof.
  unfold SFleb, SFcompare.
  destruct x as [sx|sx| |sx mx ex], y as [sy|sy| |sy my ey],
           z as [sz|sz| |sz mz ez];
    try discriminate; try reflexivity;
    try destruct sx; try destruct sy; try destruct sz;
    try discriminate; try reflexivity.
  all: change (Pos.compare_cont Eq) with Pos.compare.
  all: destruct (Z.compare_spec ex ey), (Z.compare_spec ey ez),
         (Z.compare_spec ex ez);
       try discriminate; try reflexivity; try lia; subst.
  all: destruct (Pos.compare_spec mx my), (Pos.compare_spec my mz),
         (Pos.compare_spec mx mz);
       cbn; try discriminate; try reflexivity; lia.
Qed.

Section ArgmaxBound.
Context {F : Type} `{Scalar F}.

Lemma argmax_scan_bound (v : list F) :
  forall best mp i, best < i -> argmax_scan best mp i v < i + length v.
Proof.
  induction v as [|x t IH]; intros best mp i Hb; cbn [argmax_scan length].
  - lia.
  - destruct (f_isnan mp); [lia|].
    destruct (negb (f_leb x mp)).
    + specialize (IH i x (S i)). lia.
    + specialize (IH best mp (S i)). lia.
Qed.

(** [np.argmax] raises on an empty array only, and otherwise returns a
    valid position. *)
Lemma np_argmax_in_range (v : list F) :
  v <> [] -> exists i, np_argmax v = Ok i /\ i < length v.
Proof.
  destruct v as [|x t]; [congruence|]. intros _.
  eexists. split; [reflexivity|].
  pose proof (argmax_scan_bound t 0 x 1). cbn [length]. lia.
Qed.

Lemma length_update_distance (distance dist : list F) :
  length (update_distance distance dist)
  = Nat.min (length distance) (length dist).
Proof. unfold update_distance. now rewrite length_map, length_combine. Qed.

(** The sampling loop cannot fail once it starts from a valid position
    with a distance array as long as the cloud: it returns [npoint]
    valid positions, the first being the start. *)
Lemma fps_loop_total (xyz : list (list F)) (npoint : nat) :
  forall farthest distance,
    farthest < length xyz ->
    length distance = length xyz ->
    exists centroids,
      fps_loop xyz npoint farthest distance = Ok centroids
      /\ length centroids = npoint
      /\ Forall (fun i => i < length xyz) centroids
      /\ (0 < npoint -> hd_error centroids = Some farthest).
Proof.
  induction npoint as [|n IH]; intros farthest distance Hf Hd;
    cbn [fps_loop].
  - exists []. repeat split; [constructor | lia].
  - unfold getitem at 1.
    destruct (nth_error xyz farthest) as [centroid|] eqn:Hc;
      [|apply nth_error_None in Hc; lia].
    cbn [bind].
    set (distance' := update_distance distance (map (sq_dist centroid) xyz)).
    assert (Hd' : length distance' = length xyz).
    { subst distance'. rewrite length_update_distance, length_map. lia. }
    assert (Hne : distance' <> []).
    { intros E. rewrite E in Hd'. cbn in Hd'. lia. }
    destruct (np_argmax_in_range distance' Hne) as (f' & -> & Hf').
    cbn [bind]. rewrite Hd' in Hf'.
    destruct (IH f' distance' Hf' Hd') as (cs & -> & Hlen & Hall & _).
    cbn [bind]. exists (farthest :: cs).
    repeat split; cbn; [lia | now constructor].
Qed.

End ArgmaxBound.

Section FarthestPointMore.
Context {F : Type} `{Scalar F} {G : Type} `{RandomState G}.

(** On a cloud with at least one row [farthest_point_sample] always
    returns: exactly [npoint] rows, each a row of the input (so the
    column count is kept), the first one being the row at the position
    drawn by [np.random.randint(0, N)]. *)
Theorem farthest_point_sample_total
        (point : matrix F) (npoint : nat) (w : world) :
  0 < nrows point ->
  exists out w',
    farthest_point_sample point npoint w = (Ok out, w')
    /\ nrows out = npoint
    /\ incl (rows out) (rows point)
    /\ ncols out = ncols point
    /\ log w' = log w
    /\ (0 < npoint ->
        hd_error (rows out)
        = nth_error (rows point)
                    (fst (draw_randint 0 (nrows point) (rng w)))).
Proof.
  intros HN.
  unfold farthest_point_sample, bindM, with_rng, random_randint.
  replace (nrows point <=? 0) with false
    by (symmetry; apply Nat.leb_gt; exact HN).
  pose proof (draw_randint_range 0 (nrows point) (rng w) HN) as Hrange.
  destruct (draw_randint 0 (nrows point) (rng w)) as [farthest g'] eqn:Hdraw.
  cbn [fst] in Hrange. cbn [fst]. unfold lift, fps_from.
  assert (Hf : farthest < length (map (slice 0 3) (rows point)))
    by (rewrite length_map; unfold nrows in Hrange; lia).
  destruct (fps_loop_total (map (slice 0 3) (rows point)) npoint farthest
              (repeat (f_mul (f_of_Z 1) (f_of_Z 10000000000)) (nrows point))
              Hf)
    as (cs & -> & Hlen & Hall & Hhd).
  { rewrite repeat_length, length_map. reflexivity. }
  cbn [bind]. rewrite length_map in Hall.
  rewrite (take_rows_in_range _ _ Hall). cbn [bind].
  eexists; eexists. split; [reflexivity|].
  cbn [rows ncols log]. unfold nrows at 1. cbn [rows].
  rewrite length_map.
  split; [exact Hlen|]. split.
  - intros r Hr. apply in_map_iff in Hr as (i & <- & Hi).
    rewrite Forall_forall in Hall. apply nth_In. now apply Hall.
  - split; [reflexivity|]. split; [reflexivity|].
    intros Hpos. specialize (Hhd Hpos).
    destruct cs as [|c cs]; [discriminate|]. injection Hhd as ->.
    cbn [map hd_error]. symmetry. apply nth_error_nth'.
    unfold nrows in Hrange. lia.
Qed.

(** On a cloud without rows it raises [ValueError]
    ([np.random.randint(0, 0)]), whatever [npoint] is. *)
Theorem farthest_point_sample_empty
        (point : matrix F) (npoint : nat) (w : world) :
  nrows point = 0 ->
  farthest_point_sample point npoint w = (Raise ValueError, w).
Proof.
  intros HN.
  unfold farthest_point_sample, bindM, with_rng, random_randint.
  rewrite HN. cbn. now destruct w.
Qed.

End FarthestPointMore.

(** *** [np.argmax] on binary64 arrays without NaN *)

Section ArgmaxBinary64.


Lemma SFleb_refl (x : float64) : isnan x = false -> SFleb x x = true.
Proof. intros Hx. now destruct (SFleb_total x x Hx Hx). Qed.

Lemma argmax_scan_spec (rest : list float64) :
  forall pre best mp,
    Forall (fun y => isnan y = false) rest ->
    isnan mp = false ->
    scanned pre best mp ->
    let i := argmax_scan best mp (length pre) rest in
    exists m, scanned (pre ++ rest) i m.
Proof.
  induction rest as [|x t IH]; intros pre best mp Hnan Hmp Hs;
    cbn [argmax_scan].
  - rewrite app_nil_r. now exists mp.
  - change (f_isnan mp) with (isnan mp). rewrite Hmp.
    change (f_leb x mp) with (SFleb x mp).
    inversion Hnan as [|? ? Hx Ht]; subst.
    destruct Hs as (Hb & Hnth & Hle & Hlt).
    replace (pre ++ x :: t) with ((pre ++ [x]) ++ t)
      by (now rewrite <- app_assoc).
    replace (S (length pre)) with (length (pre ++ [x]))
      by (rewrite length_app; cbn; lia).
    destruct (SFleb x mp) eqn:Hxmp; cbn [negb].
    + apply IH; [exact Ht | exact Hmp|].
      unfold scanned. rewrite length_app. cbn [length].
      split; [lia|]. split; [now rewrite nth_error_app1|].
      split; [apply Forall_app; split; [exact Hle | now constructor]|].
      rewrite firstn_app.
      replace (best - length pre) with 0 by lia.
      now rewrite firstn_O, app_nil_r.
    + assert (Hmpx : SFleb mp x = true).
      { destruct (SFleb_total x mp Hx Hmp); congruence. }
      apply IH; [exact Ht | exact Hx|].
      unfold scanned. rewrite length_app. cbn [length].
      split; [lia|].
      split; [rewrite nth_error_app2, Nat.sub_diag by lia; reflexivity|].
      split.
      * apply Forall_app. split; [|constructor; [now apply SFleb_refl|constructor]].
        apply Forall_forall. intros y Hy. rewrite Forall_forall in Hle.
        apply SFleb_trans with mp; [now apply Hle | exact Hmpx].
      * rewrite firstn_app, Nat.sub_diag.
        rewrite firstn_O, app_nil_r, firstn_all2 by lia.
        apply Forall_forall. intros y Hy. rewrite Forall_forall in Hle.
        destruct (SFleb x y) eqn:Hxy; [|reflexivity].
        rewrite (SFleb_trans x y mp Hxy (Hle y Hy)) in Hxmp. discriminate.
Qed.

(** On a non-empty binary64 array without NaN, [np.argmax] returns the
    lowest position of a largest entry: every entry is [<=] the one it
    points at, and no earlier entry is [>=] it. *)
Theorem np_argmax_lowest_maximum (v : list float64) :
  v <> [] ->
  Forall (fun y => isnan y = false) v ->
  exists i m,
    np_argmax v = Ok i
    /\ nth_error v i = Some m
    /\ Forall (fun y => SFleb y m = true) v
    /\ Forall (fun y => SFleb m y = false) (firstn i v).
Proof.
  destruct v as [|x t]; [congruence|]. intros _ Hnan.
  inversion Hnan as [|? ? Hx Ht]; subst.
  assert (Hs : scanned [x] 0 x).
  { unfold scanned. cbn. repeat split; try lia; constructor;
      [now apply SFleb_refl | constructor]. }
  destruct (argmax_scan_spec t [x] 0 x Ht Hx Hs)
    as (m & _ & Hnth & Hle & Hlt).
  cbn [length app] in *.
  exists (argmax_scan 0 x 1 t), m. repeat split; assumption.
Qed.

End ArgmaxBinary64.

(** ** The normaliser in exact arithmetic: idempotence *)

Section ExactIdempotence.
Local Open Scope R_scope.





End ExactIdempotence.

(** ** create_scene_xml.py *)

Example scene_of_two_components :
  create_scene_xml "bridge_3" (Some ["pier.obj"; "notes.txt"; "deck.obj"]%string)
                   "scenes/TLS_bridge_3_scene.xml"
  = SceneResult "scenes/TLS_bridge_3_scene.xml"
      (join_lines
         (firstn 4 (xml_parts "bridge_3" [])
          ++ part_lines "bridge_3" 0 "deck.obj"
          ++ part_lines "bridge_3" 1 "pier.obj"
          ++ skipn 4 (xml_parts "bridge_3" [])))
      2.
Proof. reflexivity. Qed.

Section SceneOrder.

Lemma ascii_compare_trans (a b c : ascii) (o : comparison) :
  Ascii.compare a b = o -> Ascii.compare b c = o -> Ascii.compare a c = o.
Proof.
  unfold Ascii.compare. intros H1 H2.
  destruct o.
  - apply N.compare_eq_iff in H1. apply N.compare_eq_iff in H2.
    apply N.compare_eq_iff. congruence.
  - apply N.compare_lt_iff in H1. apply N.compare_lt_iff in H2.
    apply N.compare_lt_iff. eapply N.lt_trans; eassumption.
  - apply N.compare_gt_iff in H1. apply N.compare_gt_iff in H2.
    apply N.compare_gt_iff. eapply N.lt_trans; eassumption.
Qed.

Lemma ascii_compare_refl (a : ascii) : Ascii.compare a a = Eq.
Proof. unfold Ascii.compare. apply N.compare_refl. Qed.

Lemma string_leb_trans (s1 s2 s3 : string) :
  String.leb s1 s2 = true -> String.leb s2 s3 = true ->
  String.leb s1 s3 = true.
Proof.
  unfold String.leb.
  revert s2 s3. induction s1 as [|a s1 IH]; intros s2 s3.
  - destruct s3; reflexivity.
  - destruct s2 as [|b s2]; [discriminate|].
    destruct s3 as [|c s3]; [now destruct (String.compare (String b s2) EmptyString) eqn:E; cbn in E|].
    cbn [String.compare].
    destruct (Ascii.compare a b) eqn:Hab; try discriminate;
      destruct (Ascii.compare b c) eqn:Hbc; try discriminate.
    + apply Ascii.compare_eq_iff in Hab, Hbc. subst.
      rewrite ascii_compare_refl. apply IH.
    + apply Ascii.compare_eq_iff in Hab. subst. now rewrite Hbc.
    + apply Ascii.compare_eq_iff in Hbc. subst. now rewrite Hab.
    + now rewrite (ascii_compare_trans a b c Lt Hab Hbc).
Qed.

Lemma insert_sorted_perm (x : string) (l : list string) :
  Permutation (insert_sorted x l) (x :: l).
Proof.
  induction l as [|y l IH]; cbn; [reflexivity|].
  destruct (String.leb x y); [reflexivity|].
  rewrite IH. apply perm_swap.
Qed.

Lemma sorted_perm (names : list string) : Permutation (sorted names) names.
Proof.
  unfold sorted.
  induction names as [|x l IH]; cbn [fold_right]; [reflexivity|].
  rewrite insert_sorted_perm. now constructor.
Qed.

Lemma insert_sorted_comm (x y : string) (l : list string) :
  insert_sorted x (insert_sorted y l) = insert_sorted y (insert_sorted x l).
Proof.
  induction l as [|z l IH]; cbn.
  - destruct (String.leb x y) eqn:Hxy, (String.leb y x) eqn:Hyx;
      try reflexivity.
    + now rewrite (String.leb_antisym _ _ Hxy Hyx).
    + destruct (String.leb_total x y); congruence.
  - destruct (String.leb y z) eqn:Hyz, (String.leb x z) eqn:Hxz; cbn;
      rewrite ?Hyz, ?Hxz.
    + destruct (String.leb x y) eqn:Hxy, (String.leb y x) eqn:Hyx;
        try reflexivity.
      * now rewrite (String.leb_antisym _ _ Hxy Hyx).
      * destruct (String.leb_total x y); congruence.
    + destruct (String.leb x y) eqn:Hxy; [|reflexivity].
      rewrite (string_leb_trans x y z Hxy Hyz) in Hxz. discriminate.
    + destruct (String.leb y x) eqn:Hyx; [|reflexivity].
      rewrite (string_leb_trans y x z Hyx Hxz) in Hyz. discriminate.
    + now rewrite IH.
Qed.

Lemma sorted_permutation_invariant (l l' : list string) :
  Permutation l l' -> sorted l = sorted l'.
Proof.
  unfold sorted.
  induction 1 as [|x l l' _ IH|x y l|l l' l'' _ IH1 _ IH2];
    cbn [fold_right].
  - reflexivity.
  - now rewrite IH.
  - apply insert_sorted_comm.
  - congruence.
Qed.


Lemma insert_sorted_Sorted (x : string) (l : list string) :
  Sorted string_le l -> Sorted string_le (insert_sorted x l).
Proof.
  induction l as [|y l IH]; cbn; intros Hs.
  - repeat constructor.
  - destruct (String.leb x y) eqn:Hxy.
    + constructor; [exact Hs | now constructor].
    + inversion Hs as [|? ? Hs' Hhd]; subst.
      constructor; [now apply IH|].
      assert (Hyx : string_le y x)
        by (destruct (String.leb_total x y); [congruence | assumption]).
      destruct l as [|z l]; cbn.
      * now constructor.
      * destruct (String.leb x z); constructor; [exact Hyx|].
        now inversion Hhd.
Qed.

Lemma sorted_Sorted (names : list string) : Sorted string_le (sorted names).
Proof.
  unfold sorted.
  induction names as [|x l IH]; cbn [fold_right]; [constructor|].
  now apply insert_sorted_Sorted.
Qed.

(** The scene file does not depend on the order in which the operating
    system lists the bridge folder: two listings of the same entries
    give the same file and the same reported count. *)
Theorem create_scene_xml_listing_independent
        (bridge_id output_path : string) (names names' : list string) :
  Permutation names names' ->
  create_scene_xml bridge_id (Some names) output_path
  = create_scene_xml bridge_id (Some names') output_path.
Proof.
  intros Hperm. unfold create_scene_xml, obj_files.
  rewrite (sorted_permutation_invariant
             (filter (fun f => Paths.endswith f ".obj") names)
             (filter (fun f => Paths.endswith f ".obj") names')).
  - reflexivity.
  - clear -Hperm.
    induction Hperm as [|x l l' _ IH|x y l|l l' l'' _ IH1 _ IH2]; cbn.
    + reflexivity.
    + destruct (Paths.endswith x ".obj"); [now constructor | exact IH].
    + destruct (Paths.endswith x ".obj"), (Paths.endswith y ".obj");
        try reflexivity. apply perm_swap.
    + now transitivity (filter (fun f => Paths.endswith f ".obj") l').
Qed.

Lemma length_part_blocks (bridge_id : string) (objs : list string) (start : nat) :
  length (flat_map (fun p => part_lines bridge_id (fst p) (snd p))
                   (combine (seq start (length objs)) objs))
  = 6 * length objs.
Proof.
  revert start. induction objs as [|o objs IH]; intros start; cbn [length seq combine flat_map].
  - reflexivity.
  - rewrite length_app, IH. cbn [part_lines length]. lia.
Qed.

Lemma nth_part_blocks (bridge_id : string) (objs : list string) :
  forall start k o,
    nth_error objs k = Some o ->
    firstn 6 (skipn (6 * k)
                (flat_map (fun p => part_lines bridge_id (fst p) (snd p))
                          (combine (seq start (length objs)) objs)))
    = part_lines bridge_id (start + k) o.
Proof.
  induction objs as [|o0 objs IH]; intros start k o Hk.
  - destruct k; discriminate.
  - cbn [length seq combine flat_map fst snd].
    destruct k as [|k].
    + injection Hk as <-. rewrite Nat.add_0_r. reflexivity.
    + replace (6 * S k) with (6 * k + 6) by lia.
      rewrite <- skipn_skipn.
      change (skipn 6 (part_lines bridge_id start o0 ++ ?l)) with l.
      cbn [nth_error] in Hk.
      rewrite (IH (S start) k o Hk). f_equal. lia.
Qed.

(** The scene lists every [.obj] entry of the bridge folder exactly
    once, in code-point order, as six lines each: the part blocks start
    after the four opening lines, the [k]-th block carries id [k] and
    the [k]-th file name, three closing lines follow, and the reported
    count is the number of [.obj] entries. *)
Theorem create_scene_xml_lists_every_component
        (bridge_id : string) (names : list string) :
  let objs := obj_files (Some names) in
  let n := length (filter (fun f => Paths.endswith f ".obj") names) in
  Sorted string_le objs
  /\ Permutation objs (filter (fun f => Paths.endswith f ".obj") names)
  /\ length objs = n
  /\ length (xml_parts bridge_id objs) = 7 + 6 * n
  /\ (forall k o,
         nth_error objs k = Some o ->
         firstn 6 (skipn (4 + 6 * k) (xml_parts bridge_id objs))
         = part_lines bridge_id k o).
Proof.
  intros objs n.
  assert (Hperm : Permutation objs
                    (filter (fun f => Paths.endswith f ".obj") names))
    by apply sorted_perm.
  assert (Hlen : length objs = n) by (now apply Permutation_length).
  split; [apply sorted_Sorted|]. split; [exact Hperm|].
  split; [exact Hlen|]. split.
  - unfold xml_parts. rewrite !length_app, length_part_blocks, Hlen.
    cbn [length]. lia.
  - intros k o Hk. unfold xml_parts.
    replace (4 + 6 * k) with (6 * k + 4) by lia.
    rewrite <- skipn_skipn.
    change (skipn 4 ([?a; ?b; ?c; ?d] ++ ?l)) with l.
    assert (Hk' : k < length objs)
      by (apply nth_error_Some; congruence).
    rewrite skipn_app, length_part_blocks.
    replace (6 * k - 6 * length objs) with 0 by lia.
    cbn [skipn]. rewrite firstn_app.
    rewrite length_skipn, length_part_blocks.
    replace (6 - (6 * length objs - 6 * k)) with 0 by lia.
    rewrite firstn_O, app_nil_r.
    apply (nth_part_blocks bridge_id objs 0 k o Hk).
Qed.

End SceneOrder.

(** ** From the merged file to the artifact name *)

Section NamingLemmas.
















End NamingLemmas.

(** ** The scan folder the merge reads (run_simulations.py, lines 113-120) *)

Section LatestScanProperties.

Lemma SFltb_not_leb (x y : float64) :
  isnan x = false -> isnan y = false ->
  SFltb x y = negb (SFleb y x).
Proof.
  unfold SFltb, SFleb, SFcompare.
  destruct x as [sx|sx| |sx mx ex], y as [sy|sy| |sy my ey];
    try discriminate; intros _ _;
    try destruct sx; try destruct sy; try reflexivity.
  all: change (Pos.compare_cont Eq) with Pos.compare.
  all: destruct (Z.compare_spec ex ey), (Z.compare_spec ey ex);
       try reflexivity; try lia; subst.
  all: destruct (Pos.compare_spec mx my), (Pos.compare_spec my mx);
       cbn; try reflexivity; lia.
Qed.

Lemma insert_latest_perm (x : dir_entry) (l : list dir_entry) :
  Permutation (insert_latest x l) (x :: l).
Proof.
  induction l as [|y l IH]; cbn; [reflexivity|].
  destruct (SFltb _ _); [|reflexivity].
  rewrite IH. apply perm_swap.
Qed.

Lemma timestamp_folders_perm (entries : list dir_entry) :
  Permutation (timestamp_folders entries) (filter entry_is_dir entries).
Proof.
  unfold timestamp_folders.
  induction (filter entry_is_dir entries) as [|x l IH]; cbn [fold_right];
    [reflexivity|].
  rewrite insert_latest_perm. now constructor.
Qed.


Lemma insert_latest_newest (x : dir_entry) (l : list dir_entry) :
  isnan (entry_mtime x) = false ->
  Forall (fun e => isnan (entry_mtime e) = false) l ->
  newest_first l -> newest_first (insert_latest x l).
Proof.
  intros Hx Hl Hn. destruct l as [|y l]; cbn.
  - constructor; [now apply SFleb_refl | constructor].
  - inversion Hl as [|? ? Hy Hl']; subst. cbn in Hn.
    rewrite (SFltb_not_leb _ _ Hx Hy).
    destruct (SFleb (entry_mtime y) (entry_mtime x)) eqn:Hyx; cbn.
    + constructor; [now apply SFleb_refl|].
      apply Forall_forall. intros e He. rewrite Forall_forall in Hn.
      apply SFleb_trans with (entry_mtime y); [now apply Hn | exact Hyx].
    + assert (Hxy : SFleb (entry_mtime x) (entry_mtime y) = true)
        by (destruct (SFleb_total _ _ Hx Hy); congruence).
      inversion Hn as [|? ? Hyy Hrest]; subst.
      constructor; [exact Hyy|].
      apply Forall_forall. intros e He.
      apply (Permutation_in _ (insert_latest_perm x l)) in He.
      destruct He as [<- | He]; [exact Hxy|].
      rewrite Forall_forall in Hrest. now apply Hrest.
Qed.

Lemma timestamp_folders_newest (entries : list dir_entry) :
  Forall (fun e => isnan (entry_mtime e) = false) entries ->
  newest_first (timestamp_folders entries).
Proof.
  intros Hnan. unfold timestamp_folders.
  assert (Hf : Forall (fun e => isnan (entry_mtime e) = false)
                      (filter entry_is_dir entries)).
  { apply Forall_forall. intros e He. apply filter_In in He as [He _].
    rewrite Forall_forall in Hnan. now apply Hnan. }
  induction (filter entry_is_dir entries) as [|x l IH]; cbn [fold_right].
  - exact I.
  - inversion Hf as [|? ? Hx Hl]; subst.
    apply insert_latest_newest; [exact Hx| |now apply IH].
    apply Forall_forall. intros e He.
    assert (Hp : Permutation (fold_right insert_latest [] l) l).
    { clear. induction l as [|y l IH]; cbn [fold_right]; [reflexivity|].
      rewrite insert_latest_perm. now constructor. }
    apply (Permutation_in _ Hp) in He.
    rewrite Forall_forall in Hl. now apply Hl.
Qed.

(** The scan folder the merge reads is a sub-directory of the bridge's
    scan directory that no other sub-directory is more recent than; a
    scan directory without sub-directories is an [IndexError]
    ([timestamp_folders[0]]). *)
Theorem latest_scan_dir_is_most_recent (entries : list dir_entry) :
  Forall (fun e => isnan (entry_mtime e) = false) entries ->
  (filter entry_is_dir entries = [] ->
   latest_scan_dir entries = Raise IndexError)
  /\ (filter entry_is_dir entries <> [] ->
      exists latest,
        latest_scan_dir entries = Ok latest
        /\ In latest entries
        /\ entry_is_dir latest = true
        /\ forall e, In e entries -> entry_is_dir e = true ->
                     SFleb (entry_mtime e) (entry_mtime latest) = true).
Proof.
  intros Hnan. unfold latest_scan_dir. split.
  - intros Hnone. unfold timestamp_folders. now rewrite Hnone.
  - intros Hsome.
    pose proof (timestamp_folders_perm entries) as Hperm.
    pose proof (timestamp_folders_newest entries Hnan) as Hnew.
    destruct (timestamp_folders entries) as [|latest rest] eqn:Et.
    + apply Permutation_nil in Hperm. contradiction.
    + exists latest. split; [reflexivity|].
      assert (Hin : In latest (filter entry_is_dir entries))
        by (apply (Permutation_in _ Hperm); now left).
      apply filter_In in Hin as [Hin Hdir].
      split; [exact Hin|]. split; [exact Hdir|].
      intros e He Hd. cbn in Hnew. rewrite Forall_forall in Hnew.
      apply Hnew. apply (Permutation_in _ (Permutation_sym Hperm)).
      apply filter_In. now split.
Qed.

End LatestScanProperties.

(** ** Farthest-point sampling never picks a row twice *)

Section SpreadProofs.

Lemma positive_not_nan (d : float64) : positive d -> isnan d = false.
Proof. unfold positive. now destruct d. Qed.

Lemma zero_not_nan (d : float64) : is_zero d = true -> isnan d = false.
Proof. now destruct d. Qed.

Lemma zero_lt_positive (z d : float64) :
  is_zero z = true -> positive d -> SFltb z d = true.
Proof. unfold positive. destruct z; try discriminate. now destruct d. Qed.

Lemma positive_not_lt_zero (z d : float64) :
  is_zero z = true -> positive d -> SFltb d z = false.
Proof.
  unfold positive. destruct z; try discriminate.
  destruct d as [|[]| |[] ? ?]; try discriminate; reflexivity.
Qed.

Lemma positive_not_le_zero (z d : float64) :
  is_zero z = true -> positive d -> SFleb d z = false.
Proof.
  unfold positive. destruct z; try discriminate.
  destruct d as [|[]| |[] ? ?]; try discriminate; reflexivity.
Qed.

Lemma nth_error_update_distance (distance dist : list float64) (i : nat)
      (d' : float64) :
  nth_error (update_distance distance dist) i = Some d' ->
  exists d0 d1,
    nth_error distance i = Some d0
    /\ nth_error dist i = Some d1
    /\ d' = if SFltb d1 d0 then d1 else d0.
Proof.
  unfold update_distance. revert dist i.
  induction distance as [|d0 distance IH]; intros dist i;
    [destruct i; discriminate|].
  destruct dist as [|d1 dist]; [destruct i; discriminate|].
  destruct i as [|i]; cbn.
  - intros [= <-]. now exists d0, d1.
  - apply IH.
Qed.

Lemma missing_position (n : nat) (chosen : list nat) :
  NoDup chosen -> length chosen < n ->
  exists i, i < n /\ ~ In i chosen.
Proof.
  intros Hnd Hlen.
  destruct (Exists_dec (fun i => ~ In i chosen) (seq 0 n)) as [He | Hne].
  - intros i. destruct (in_dec Nat.eq_dec i chosen); [right | left]; tauto.
  - apply Exists_exists in He as (i & Hi & Hnot).
    apply in_seq in Hi. exists i. split; [lia | exact Hnot].
  - exfalso.
    assert (Hincl : incl (seq 0 n) chosen).
    { intros i Hi. destruct (in_dec Nat.eq_dec i chosen) as [|Hnot];
        [assumption|].
      exfalso. apply Hne. apply Exists_exists. now exists i. }
    pose proof (NoDup_incl_length (seq_NoDup n 0) Hincl) as Hle.
    rewrite length_seq in Hle. lia.
Qed.

Lemma np_argmax_upper (v : list float64) :
  v <> [] ->
  Forall (fun y => isnan y = false) v ->
  exists i m,
    np_argmax v = Ok i
    /\ nth_error v i = Some m
    /\ Forall (fun y => SFleb y m = true) v.
Proof.
  destruct v as [|x t]; [congruence|]. intros _ Hnan.
  inversion Hnan as [|? ? Hx Ht]; subst.
  assert (Hs : scanned [x] 0 x).
  { unfold scanned. cbn. repeat split; try lia; constructor;
      [now apply SFleb_refl | constructor]. }
  destruct (argmax_scan_spec t [x] 0 x Ht Hx Hs) as (m & _ & Hnth & Hle & _).
  cbn [length app] in *.
  exists (argmax_scan 0 x 1 t), m. repeat split; assumption.
Qed.

Section Loop.
Variable xyz : list (list float64).
Hypothesis Hapart : apart xyz.

Lemma distances_ok_step (chosen : list nat) (farthest : nat)
      (centroid : list float64) (distance : list float64) :
  nth_error xyz farthest = Some centroid ->
  ~ In farthest chosen ->
  distances_ok (length xyz) chosen distance ->
  distances_ok (length xyz) (farthest :: chosen)
               (update_distance distance (map (sq_dist centroid) xyz)).
Proof.
  intros Hc Hnew (Hlen & Hd). destruct Hapart as (Hself & Hdiff).
  split.
  - rewrite length_update_distance, length_map. lia.
  - intros i d' Hi.
    apply nth_error_update_distance in Hi as (d0 & d1 & H0 & H1 & ->).
    change (@f_ltb float64 Binary64.scalar) with SFltb.
    rewrite nth_error_map in H1.
    destruct (nth_error xyz i) as [x|] eqn:Hx; [|discriminate].
    cbn [option_map] in H1. injection H1 as <-.
    destruct (Hd i d0 H0) as (Hzero & Hpos).
    destruct (Nat.eq_dec farthest i) as [<- | Hne].
    + rewrite Hx in Hc. injection Hc as ->.
      pose proof (Hself _ _ Hx) as Hz. specialize (Hpos Hnew).
      rewrite (zero_lt_positive _ _ Hz Hpos).
      split; [intros _; exact Hz | intros Hn; exfalso; apply Hn; now left].
    + pose proof (Hdiff _ _ _ _ Hc Hx Hne) as Hp.
      split.
      * intros [E | Hin]; [congruence|]. specialize (Hzero Hin).
        now rewrite (positive_not_lt_zero _ _ Hzero Hp).
      * intros Hn. assert (Hn' : ~ In i chosen) by (intros Hin; apply Hn; now right).
        specialize (Hpos Hn').
        now destruct (SFltb (sq_dist centroid x) d0).
Qed.

Lemma distances_ok_no_nan (chosen : list nat) (distance : list float64) :
  distances_ok (length xyz) chosen distance ->
  Forall (fun y => isnan y = false) distance.
Proof.
  intros (_ & Hd). apply Forall_forall. intros y Hy.
  apply In_nth_error in Hy as (i & Hi).
  destruct (Hd i y Hi) as (Hzero & Hpos).
  destruct (in_dec Nat.eq_dec i chosen) as [Hin | Hnot].
  - now apply zero_not_nan, Hzero.
  - now apply positive_not_nan, Hpos.
Qed.

Lemma fps_loop_distinct (npoint : nat) :
  forall chosen farthest distance,
    NoDup chosen ->
    ~ In farthest chosen ->
    farthest < length xyz ->
    distances_ok (length xyz) chosen distance ->
    length chosen + npoint <= length xyz ->
    exists centroids,
      fps_loop xyz npoint farthest distance = Ok centroids
      /\ length centroids = npoint
      /\ NoDup centroids
      /\ forall c, In c centroids -> c < length xyz /\ ~ In c chosen.
Proof.
  induction npoint as [|n IH]; intros chosen farthest distance
    Hnd Hnew Hf Hok Hroom; cbn [fps_loop].
  - exists []. split; [reflexivity|]. split; [reflexivity|].
    split; [constructor | intros c []].
  - unfold getitem at 1.
    destruct (nth_error xyz farthest) as [centroid|] eqn:Hc;
      [|apply nth_error_None in Hc; lia].
    cbn [bind].
    pose proof (distances_ok_step chosen farthest centroid distance
                                  Hc Hnew Hok) as Hok'.
    set (distance' := update_distance distance (map (sq_dist centroid) xyz))
      in *.
    assert (Hne : distance' <> []).
    { destruct Hok' as (Hlen & _). intros E. rewrite E in Hlen.
      cbn in Hlen. lia. }
    destruct (np_argmax_upper distance' Hne
                (distances_ok_no_nan _ _ Hok'))
      as (f' & m & -> & Hm & Hle).
    cbn [bind].
    assert (Hf' : f' < length xyz).
    { destruct Hok' as (Hlen & _). rewrite <- Hlen.
      apply nth_error_Some. congruence. }
    assert (Hnd' : NoDup (farthest :: chosen)) by now constructor.
    destruct n as [|n'].
    + cbn [fps_loop bind]. exists [farthest].
      split; [reflexivity|]. split; [reflexivity|]. split.
      * constructor; [intros [] | constructor].
      * intros c [<- | []]. now split.
    + assert (Hnew' : ~ In f' (farthest :: chosen)).
      { intros Hin.
        destruct (missing_position (length xyz) (farthest :: chosen) Hnd')
          as (i & Hi & Hnot); [cbn [length]; lia|].
        destruct Hok' as (Hlen & Hd').
        destruct (nth_error distance' i) as [d|] eqn:Hdi;
          [|apply nth_error_None in Hdi; lia].
        pose proof (proj2 (Hd' i d Hdi) Hnot) as Hpos.
        pose proof (proj1 (Hd' f' m Hm) Hin) as Hzero.
        rewrite Forall_forall in Hle.
        pose proof (Hle d (nth_error_In _ _ Hdi)) as Hdm.
        rewrite (positive_not_le_zero _ _ Hzero Hpos) in Hdm.
        discriminate. }
      destruct (IH (farthest :: chosen) f' distance' Hnd' Hnew' Hf' Hok')
        as (cs & -> & Hlen & Hndcs & Hcs); [cbn [length]; lia|].
      cbn [bind]. exists (farthest :: cs).
      split; [reflexivity|]. split; [cbn; lia|]. split.
      * constructor; [|exact Hndcs].
        intros Hin. destruct (Hcs _ Hin) as (_ & Hnot).
        apply Hnot. now left.
      * intros c [<- | Hin]; [now split|].
        destruct (Hcs _ Hin) as (Hlt & Hnot).
        split; [exact Hlt|]. intros Hc'. apply Hnot. now right.
Qed.

End Loop.

End SpreadProofs.

Section FarthestPointSpread.
Context {G : Type} `{RandomState G}.

(** When the rows are [apart] and no more points are asked for than
    there are, [farthest_point_sample] never picks a row twice: it
    returns the rows found at [npoint] pairwise distinct positions. *)
Theorem farthest_point_sample_distinct
        (point : matrix float64) (npoint : nat) (w : world) :
  apart (spatial point) ->
  0 < nrows point ->
  npoint <= nrows point ->
  exists centroids out w',
    farthest_point_sample point npoint w = (Ok out, w')
    /\ rows out = map (fun i => nth i (rows point) []) centroids
    /\ length centroids = npoint
    /\ NoDup centroids
    /\ Forall (fun i => i < nrows point) centroids.
Proof.
  intros Hap HN Hk.
  unfold farthest_point_sample, bindM, with_rng, random_randint.
  replace (nrows point <=? 0) with false
    by (symmetry; apply Nat.leb_gt; exact HN).
  pose proof (draw_randint_range 0 (nrows point) (rng w) HN) as Hrange.
  destruct (draw_randint 0 (nrows point) (rng w)) as [farthest g'].
  cbn [fst] in Hrange. unfold lift, fps_from. fold (spatial point).
  assert (Hlen : length (spatial point) = nrows point)
    by (unfold spatial, nrows; apply length_map).
  assert (Hok : distances_ok (length (spatial point)) []
                  (repeat (f_mul (f_of_Z 1) (f_of_Z 10000000000))
                          (nrows point))).
  { split; [now rewrite repeat_length|].
    intros i d Hi. apply nth_error_In, repeat_spec in Hi. subst d.
    split; [intros [] | intros _; reflexivity]. }
  destruct (fps_loop_distinct (spatial point) Hap npoint [] farthest _
              (NoDup_nil _) (fun x => x) ltac:(lia) Hok ltac:(cbn; lia))
    as (cs & -> & Hcs & Hnd & Hin).
  cbn [bind].
  assert (Hall : Forall (fun i => i < length (rows point)) cs).
  { apply Forall_forall. intros c Hc. destruct (Hin c Hc) as [Hlt _].
    unfold nrows in Hlen. lia. }
  rewrite (take_rows_in_range _ _ Hall). cbn [bind].
  exists cs. eexists; eexists. split; [reflexivity|].
  cbn [rows]. repeat split; assumption.
Qed.

End FarthestPointSpread.

(** ** The further properties on concrete inputs *)


Lemma component_groups_partition_witness :
  NoDup (map fst (component_files Cases.merged_ab))
  /\ (forall g, In g (component_files Cases.merged_ab) -> snd g <> [])
  /\ (forall k, group_of k (component_files Cases.merged_ab)
                = filter (has_key k) (all_lines Cases.merged_ab))
  /\ (forall row, In row (all_lines Cases.merged_ab) ->
                  exists k, row_key row = Ok k
                            /\ In row (group_of k
                                         (component_files Cases.merged_ab))).
Proof.
  apply (component_groups_partition
           Sample.listed_ab (xyz_files "scan" Sample.listed_ab)
           Cases.merged_ab).
  reflexivity.
Defined.

Lemma component_groups_cover_witness :
  Permutation (concat (map snd (component_files Cases.merged_ab)))
              (all_lines Cases.merged_ab)
  /\ list_sum (map (fun g => length (snd g))
                   (component_files Cases.merged_ab))
     = length (all_lines Cases.merged_ab).
Proof.
  apply (component_groups_cover
           Sample.listed_ab (xyz_files "scan" Sample.listed_ab)
           Cases.merged_ab).
  reflexivity.
Defined.

Lemma resample_keeps_input_rows_witness :
  exists out w',
    resample_to target_count Cases.four_points (World 0 []) = (Ok out, w')
    /\ (nrows out = target_count
        /\ incl (rows out) (rows Cases.four_points)
        /\ ncols out = ncols Cases.four_points
        /\ (rectangular Cases.four_points -> rectangular out))
    /\ saved (log w') = saved (log (World 0 [])).
Proof.
  apply (resample_keeps_input_rows target_count Cases.four_points
                                   (World 0 [])).
  cbn. lia.
Defined.

Lemma resample_empty_raises_witness :
  resample_to target_count (Matrix (F := float64) [] 6) (World 0 [])
  = (Raise ValueError, World 0 [Print (MsgUpsampling 0)]).
Proof.
  apply (resample_empty_raises target_count (Matrix (F := float64) [] 6)
                               (World 0 [])).
  - reflexivity.
  - apply Nat.ltb_lt. vm_compute. reflexivity.
Defined.

Lemma pc_norm_fails_only_on_empty_witness :
  pc_norm (Matrix (F := float64) [] 6) = Raise ValueError
  /\ exists out,
      pc_norm Cases.four_points = Ok out
      /\ nrows out = nrows Cases.four_points.
Proof.
  split.
  - apply (proj1 (pc_norm_fails_only_on_empty (Matrix (F := float64) [] 6))).
    reflexivity.
  - apply (proj2 (pc_norm_fails_only_on_empty Cases.four_points)).
    cbn. lia.
Defined.



Lemma unrecognised_input_saves_nothing_witness :
  let fs : file_system :=
    FileSystem (fun _ => true) (fun _ => [map of_Z [1; 2; 3; 4; 5; 6]%Z]) in
  saved (log (snd (convert_bridge_data fs "scan.xyz" "npy" true
                                       (World 0 []))))
  = saved (log (World 0 [])).
Proof.
  intro fs.
  apply (unrecognised_input_saves_nothing fs "scan.xyz" "npy" true
                                          (World 0 [])).
  intros data Hload. discriminate Hload.
Defined.

Lemma farthest_point_sample_total_witness :
  exists out w',
    farthest_point_sample Cases.four_points 3 (World 1 []) = (Ok out, w')
    /\ nrows out = 3
    /\ incl (rows out) (rows Cases.four_points)
    /\ ncols out = ncols Cases.four_points
    /\ log w' = log (World 1 [])
    /\ (0 < 3 ->
        hd_error (rows out)
        = nth_error (rows Cases.four_points)
                    (fst (draw_randint 0 (nrows Cases.four_points) 1))).
Proof.
  apply (farthest_point_sample_total Cases.four_points 3 (World 1 [])).
  cbn. lia.
Defined.

(** From the point 1 the sampler goes to 5, the farthest, then to 0. *)
Example farthest_point_sample_four_points :
  fst (farthest_point_sample Cases.four_points 3 (World 1 []))
  = Ok (Matrix (map (fun z => map of_Z [z; 0; 0; 0; 0; 0]%Z) [1; 5; 0]%Z) 6).
Proof. vm_compute. reflexivity. Qed.

Lemma np_argmax_lowest_maximum_witness :
  exists i m,
    np_argmax (map of_Z [1; 3; 3; 2]%Z) = Ok i
    /\ nth_error (map of_Z [1; 3; 3; 2]%Z) i = Some m
    /\ Forall (fun y => SFleb y m = true) (map of_Z [1; 3; 3; 2]%Z)
    /\ Forall (fun y => SFleb m y = false)
              (firstn i (map of_Z [1; 3; 3; 2]%Z)).
Proof.
  apply (np_argmax_lowest_maximum (map of_Z [1; 3; 3; 2]%Z)).
  - discriminate.
  - repeat constructor.
Defined.

Example np_argmax_tie : np_argmax (map of_Z [1; 3; 3; 2]%Z) = Ok 1.
Proof. reflexivity. Qed.


Lemma create_scene_xml_listing_independent_witness :
  create_scene_xml "bridge_3"
                   (Some ["pier.obj"; "notes.txt"; "deck.obj"]%string)
                   "scene.xml"
  = create_scene_xml "bridge_3"
                     (Some ["notes.txt"; "pier.obj"; "deck.obj"]%string)
                     "scene.xml".
Proof.
  apply (create_scene_xml_listing_independent
           "bridge_3" "scene.xml"
           ["pier.obj"; "notes.txt"; "deck.obj"]%string
           ["notes.txt"; "pier.obj"; "deck.obj"]%string).
  apply perm_swap.
Defined.


Lemma latest_scan_dir_is_most_recent_witness :
  (filter entry_is_dir Cases.scan_entries = [] ->
   latest_scan_dir Cases.scan_entries = Raise IndexError)
  /\ (filter entry_is_dir Cases.scan_entries <> [] ->
      exists latest,
        latest_scan_dir Cases.scan_entries = Ok latest
        /\ In latest Cases.scan_entries
        /\ entry_is_dir latest = true
        /\ forall e, In e Cases.scan_entries -> entry_is_dir e = true ->
                     SFleb (entry_mtime e) (entry_mtime latest) = true).
Proof.
  apply (latest_scan_dir_is_most_recent Cases.scan_entries).
  repeat constructor.
Defined.

Example latest_scan_dir_of_entries :
  latest_scan_dir Cases.scan_entries
  = Ok (DirEntry "2026-01-02_09-30-00" true (of_Z 1767346200)).
Proof. reflexivity. Qed.

Lemma four_points_apart : apart (spatial Cases.four_points).
Proof.
  split.
  - intros i x Hx.
    do 4 (destruct i as [|i]; [injection Hx as <-; reflexivity|]).
    destruct i; discriminate Hx.
  - intros i j x y Hx Hy Hne.
    do 4 (destruct i as [|i];
          [injection Hx as <-;
           do 4 (destruct j as [|j];
                 [injection Hy as <-; first [congruence | reflexivity]|]);
           destruct j; discriminate Hy|]).
    destruct i; discriminate Hx.
Qed.

Lemma farthest_point_sample_distinct_witness :
  exists centroids out w',
    farthest_point_sample Cases.four_points 4 (World 1 []) = (Ok out, w')
    /\ rows out = map (fun i => nth i (rows Cases.four_points) []) centroids
    /\ length centroids = 4
    /\ NoDup centroids
    /\ Forall (fun i => i < nrows Cases.four_points) centroids.
Proof.
  apply (farthest_point_sample_distinct Cases.four_points 4 (World 1 [])).
  - exact four_points_apart.
  - cbn. lia.
  - cbn. lia.
Defined.
